(** * GbotV2: random recipe picker over the Allerhande sitemap

    A shallow embedding of [GbotV2.py]: the sitemap reader
    [_get_recipe_urls_from_sitemap], the sampling loop of [scrape_recipes]
    and the picker [pick_random_recipe], with the properties the design
    note states about them.

    Python values are modelled as follows.
    - [str] is a list of Unicode code points; [str.strip] removes the
      white space of [str.isspace], and [str.lower] is taken as the
      interpreter has it.
    - [int] is [Z]; counters that only count ([len]) are [nat].
    - [float] durations are only handed to the network client and to
      [time.sleep]; they are carried as [Z] milliseconds.
    - the network, the clock and the keyboard are a world threaded through
      every blocking call; a call returns a value or raises.
    - a [dict] is an association list in insertion order. *)

From Stdlib Require Import List String Ascii NArith ZArith Bool Arith Lia Permutation.
Import ListNotations.
Local Open Scope string_scope.
Local Open Scope list_scope.
Local Open Scope Z_scope.

Set Implicit Arguments.

(** ** Strings *)

(** A Python [str] is a sequence of Unicode code points. *)
Definition char : Type := N.

Definition pystr : Type := list char.

(** The [str] an ASCII literal of the source stands for. *)
Fixpoint py (s : string) : pystr :=
  match s with
  | EmptyString => []
  | String c s' => N_of_ascii c :: py s'
  end.

Module Str.

(** [a == b] *)
Fixpoint eqb (a b : pystr) : bool :=
  match a, b with
  | [], [] => true
  | x :: a', y :: b' => N.eqb x y && eqb a' b'
  | _, _ => false
  end.

(** [s.lower()].  The case mapping of Unicode is a table of the
    interpreter, with rules that look at the neighbours of a character;
    it is taken as it is, a function on strings of which only
    ["".lower() == ""] is used. *)
Class Lower : Type := {
  lower : pystr -> pystr;
  lower_nil : lower [] = []
}.

(** The characters [str.strip()] removes, those for which [str.isspace]
    holds: U+0009..U+000D, U+001C..U+0020, U+0085, U+00A0, U+1680,
    U+2000..U+200A, U+2028, U+2029, U+202F, U+205F and U+3000. *)
Definition is_space (c : char) : bool :=
  (((0x9 <=? c) && (c <=? 0xd)) || ((0x1c <=? c) && (c <=? 0x20))
   || (c =? 0x85) || (c =? 0xa0) || (c =? 0x1680)
   || ((0x2000 <=? c) && (c <=? 0x200a))
   || (c =? 0x2028) || (c =? 0x2029) || (c =? 0x202f) || (c =? 0x205f)
   || (c =? 0x3000))%N.

Fixpoint lstrip (s : pystr) : pystr :=
  match s with
  | [] => []
  | c :: s' => if is_space c then lstrip s' else s
  end.

Fixpoint rstrip (s : pystr) : pystr :=
  match s with
  | [] => []
  | c :: s' =>
      match rstrip s' with
      | [] => if is_space c then [] else [c]
      | r => c :: r
      end
  end.

(** [s.strip()] *)
Definition strip (s : pystr) : pystr := rstrip (lstrip s).

Fixpoint is_prefix (p s : pystr) : bool :=
  match p with
  | [] => true
  | a :: p' =>
      match s with
      | [] => false
      | b :: s' => N.eqb a b && is_prefix p' s'
      end
  end.

(** [needle in hay] *)
Fixpoint str_in (needle hay : pystr) : bool :=
  is_prefix needle hay
  || match hay with
     | [] => false
     | _ :: hay' => str_in needle hay'
     end.

(** [s.endswith(suffix)] *)
Fixpoint endswith (s suffix : pystr) : bool :=
  eqb s suffix
  || match s with
     | [] => false
     | _ :: s' => endswith s' suffix
     end.

(** Truth value of a string: [bool(s)]. *)
Definition truthy (s : pystr) : bool :=
  match s with [] => false | _ => true end.

Fixpoint all_space (s : pystr) : bool :=
  match s with
  | [] => true
  | c :: s' => is_space c && all_space s'
  end.

(** The first and the last character of [s], if it has any, are not white
    space. *)
Definition clean_ends (s : pystr) : Prop :=
  match s with
  | [] => True
  | c :: _ => is_space c = false /\ is_space (last s c) = false
  end.

End Str.

Arguments Str.is_space : simpl never.

(** ** Exceptions and the state-and-exception monad

    A Python call either returns or raises.  The state is mutated in
    place, so it survives a raise: a handler sees the state as it was when
    the exception left the [try] block. *)

Inductive exn : Type :=
| RequestException            (* requests.RequestException and subclasses *)
| KeyboardInterrupt
| ParseError                  (* xml.etree.ElementTree.ParseError *)
| RuntimeError (msg : string)
| IndexError
| UnicodeEncodeError
| ValueError
| OtherException (name : string).

Inductive result (A : Type) : Type :=
| Ok (a : A)
| Raise (e : exn).
Arguments Ok {A} a.
Arguments Raise {A} e.

Definition is_keyboard_interrupt (e : exn) : bool :=
  match e with KeyboardInterrupt => true | _ => false end.

Definition is_request_exception (e : exn) : bool :=
  match e with RequestException => true | _ => false end.

Definition is_parse_error (e : exn) : bool :=
  match e with ParseError => true | _ => false end.

Module Exc.

Definition M (S A : Type) : Type := S -> result A * S.

Definition ret {S A} (a : A) : M S A := fun s => (Ok a, s).

Definition raise {S A} (e : exn) : M S A := fun s => (Raise e, s).

Definition bind {S A B} (m : M S A) (f : A -> M S B) : M S B :=
  fun s =>
    match m s with
    | (Ok a, s') => f a s'
    | (Raise e, s') => (Raise e, s')
    end.

(** [try: m except <handles>: h] *)
Definition try_except {S A} (m : M S A) (handles : exn -> bool)
           (h : M S A) : M S A :=
  fun s =>
    match m s with
    | (Ok a, s') => (Ok a, s')
    | (Raise e, s') => if handles e then h s' else (Raise e, s')
    end.

Definition get {S} : M S S := fun s => (Ok s, s).

Definition modify {S} (f : S -> S) : M S unit := fun s => (Ok tt, f s).

End Exc.

Declare Scope exc_scope.
Delimit Scope exc_scope with exc.
Notation "x <- m ;; k" := (Exc.bind m (fun x => k))
  (at level 61, m at next level, right associativity) : exc_scope.
Notation "m ;;; k" := (Exc.bind m (fun _ => k))
  (at level 61, right associativity) : exc_scope.

(** ** Data model *)

(** [@dataclass(frozen=True) class Recipe] *)
Record Recipe : Type := mkRecipe { title : pystr; url : pystr }.

Definition key : Type := (pystr * pystr)%type.

Definition key_eqb (a b : key) : bool :=
  Str.eqb (fst a) (fst b) && Str.eqb (snd a) (snd b).

(** [matches: dict[tuple[str, str], Recipe]], in insertion order. *)
Definition match_set : Type := list (key * Recipe).

(** [d[k] = v]: an existing key keeps its place, a new one goes last. *)
Fixpoint dict_set (k : key) (v : Recipe) (d : match_set) : match_set :=
  match d with
  | [] => [(k, v)]
  | (k', v') :: d' =>
      if key_eqb k k' then (k', v) :: d' else (k', v') :: dict_set k v d'
  end.

Definition dict_keys (d : match_set) : list key := map fst d.

(** [list(d.values())] *)
Definition dict_values (d : match_set) : list Recipe := map snd d.


(** ** The outside world

    The sitemap response, as the reader consumes it: the elements the
    streaming parser [ET.iterparse] yields ("end" events, in order) before
    the stream ends or raises, [ParseError] or what reading [resp.raw]
    raises; and what [ET.fromstring(resp.text)] followed by [root.iter()]
    gives when the fallback asks for it, on whatever [resp.text] then
    holds. *)

Definition seconds : Type := Z.

Record element : Type := mkElement { tag : pystr; text : option pystr }.

Record sitemap_response : Type := mkSitemap {
  stream_elems : list element;
  stream_end : option exn;
  document : result (list element)
}.

(** The network client, the page fetcher and the clock.  Each call may
    raise: a transport failure is [RequestException], Ctrl+C is
    [KeyboardInterrupt].  The loop spends its time in these blocking
    calls, and that is where the model delivers a Ctrl+C: in the page
    request (the candidate is then not recorded) or in either sleep (after
    the candidate was recorded or passed over).  The page fetcher is taken
    whole, as the pair it returns or the exception it raises.  [print]
    writes to a standard output that may not be able to encode the text,
    and raises [UnicodeEncodeError] then. *)
Class Network (World : Type) : Type := {
  (** [session.get(sitemap_url, stream=True, ...)] and [raise_for_status] *)
  session_get_sitemap : pystr -> seconds -> World -> result sitemap_response * World;
  (** [_fetch_recipe_title_and_tags]: [(title, tags_text)] *)
  fetch_page : pystr -> seconds -> World -> result (pystr * pystr) * World;
  (** [time.sleep] *)
  sleep : seconds -> World -> result unit * World;
  (** [print] *)
  print_line : pystr -> World -> result unit * World
}.

(** The generator behind [random]: [random.Random(seed)] and the
    [_randbelow] every other method is built on. *)
Class RandomGen (G : Type) : Type := {
  rng_seed : Z -> G;
  randbelow : nat -> G -> nat * G;
  randbelow_lt : forall n g, (0 < n)%nat -> (fst (randbelow n g) < n)%nat
}.

(** One page request and its outcome. *)
Definition fetch_event : Type := (pystr * result (pystr * pystr))%type.

(** The process: the world, the module-level generator of [random], and
    the history of page requests made so far. *)
Record State (World G : Type) : Type := mkState {
  net : World;
  global_rng : G;
  fetch_log : list fetch_event
}.

(** ** Sitemap reader *)

Definition recipe_marker : pystr := (py "/allerhande/recept/").

(** The [for] loop over location elements, shared by the streaming parse
    and the fallback.  The second component is [Some rest] when the loop
    left through [break], with the elements it did not look at. *)
Fixpoint scan_locs (max_urls : Z) (elems : list element) (urls : list pystr)
  : list pystr * option (list element) :=
  match elems with
  | [] => (urls, None)
  | el :: rest =>
      match text el with
      | Some t =>
          if Str.endswith (tag el) (py "loc") && Str.truthy t then
            let loc := Str.strip t in
            if Str.str_in recipe_marker loc then
              let urls' := urls ++ [loc] in
              if Z.of_nat (List.length urls') >=? max_urls then (urls', Some rest)
              else scan_locs max_urls rest urls'
            else scan_locs max_urls rest urls
          else scan_locs max_urls rest urls
      | None => scan_locs max_urls rest urls
      end
  end.

Section Reader.
Context {World : Type} `{Network World}.
Local Open Scope exc_scope.

Definition _get_recipe_urls_from_sitemap
           (sitemap_url : pystr) (max_urls : Z) (timeout_s : seconds)
  : Exc.M World (list pystr) :=
  resp <- session_get_sitemap sitemap_url timeout_s ;;
  match scan_locs max_urls (stream_elems resp) [] with
  | (urls, Some _) => Exc.ret urls
  | (urls, None) =>
      match stream_end resp with
      | None => Exc.ret urls
      | Some e =>
          if is_parse_error e then
            root <- (fun w => (document resp, w)) ;;
            Exc.ret (fst (scan_locs max_urls root urls))
          else Exc.raise e
      end
  end.

End Reader.

(** ** Shuffle and choice *)

Fixpoint list_set {A} (i : nat) (v : A) (l : list A) : list A :=
  match l, i with
  | [], _ => []
  | _ :: l', O => v :: l'
  | a :: l', S i' => a :: list_set i' v l'
  end.

(** [x[i], x[j] = x[j], x[i]] *)
Definition swap {A} (i j : nat) (x : list A) : list A :=
  match nth_error x j, nth_error x i with
  | Some xj, Some xi => list_set j xi (list_set i xj x)
  | _, _ => x
  end.

Section Random.
Context {G : Type} `{RandomGen G}.

(** [for i in reversed(range(1, i + 1)): j = randbelow(i + 1); swap] *)
Fixpoint shuffle_from {A} (i : nat) (x : list A) (g : G) : list A * G :=
  match i with
  | O => (x, g)
  | S i' =>
      let (j, g') := randbelow (S i) g in
      shuffle_from i' (swap i j x) g'
  end.

(** [Random.shuffle] *)
Definition shuffle {A} (x : list A) (g : G) : list A * G :=
  shuffle_from (List.length x - 1) x g.

(** [Random.choice] *)
Definition choice {A} (seq : list A) (g : G) : result A * G :=
  match seq with
  | [] => (Raise IndexError, g)
  | _ =>
      let (j, g') := randbelow (List.length seq) g in
      match nth_error seq j with
      | Some a => (Ok a, g')
      | None => (Raise IndexError, g')
      end
  end.

End Random.

(** ** Sampler / matcher *)

(** The keyword arguments of [scrape_recipes]. *)
Record Params : Type := mkParams {
  sitemap_url : pystr;
  want_kooktechniek : pystr;
  want_menugang : pystr;
  max_sitemap_urls : Z;
  max_attempts : Z;
  target_matches : Z;
  delay_s : seconds;
  timeout_s : seconds;
  seed : option Z
}.

Section Keywords.
Context `{Str.Lower}.

(** [want.strip().lower()] *)
Definition normalise (want : pystr) : pystr := Str.lower (Str.strip want).

(** [want_a = want_kooktechniek.strip().lower()] *)
Definition want_a (P : Params) : pystr := normalise (want_kooktechniek P).

(** [want_b = want_menugang.strip().lower()] *)
Definition want_b (P : Params) : pystr := normalise (want_menugang P).

End Keywords.

(** The text printed when Ctrl+C ends the loop: a line feed, U+26D4,
    U+FE0F, and the rest in ASCII. *)
Definition interrupt_notice : pystr :=
  [0xa; 0x26d4; 0xfe0f]%N
  ++ py " Afgebroken met Ctrl+C. Ik geef terug wat er al gevonden is...".

Arguments interrupt_notice : simpl never.

(** How an iteration of the [for] loop ends: it falls through (or
    [continue]s) to the next candidate, or it [break]s. *)
Inductive ctl : Type := Next | Stop.

Section Sampler.
Context {World G : Type} `{Network World} `{RandomGen G} `{Str.Lower}.
Local Open Scope exc_scope.

(** The local variables of [scrape_recipes] that the loop updates, next to
    the process state. *)
Record Frame : Type := mkFrame {
  st : State World G;
  matches : match_set;
  tried : Z
}.

Definition lift_net {A} (m : Exc.M World A) : Exc.M (State World G) A :=
  fun s =>
    let (r, w) := m (net s) in
    (r, mkState w (global_rng s) (fetch_log s)).

(** The call of the page fetcher, entered in the request history. *)
Definition call_fetch (u : pystr) (timeout : seconds)
  : Exc.M Frame (pystr * pystr) :=
  fun fr =>
    let (r, w) := fetch_page u timeout (net (st fr)) in
    (r, mkFrame (mkState w (global_rng (st fr)) (fetch_log (st fr) ++ [(u, r)]))
                (matches fr) (tried fr)).

Definition call_sleep (delay : seconds) : Exc.M Frame unit :=
  fun fr =>
    let (r, w) := sleep delay (net (st fr)) in
    (r, mkFrame (mkState w (global_rng (st fr)) (fetch_log (st fr)))
                (matches fr) (tried fr)).

Definition call_print (msg : pystr) : Exc.M Frame unit :=
  fun fr =>
    let (r, w) := print_line msg (net (st fr)) in
    (r, mkFrame (mkState w (global_rng (st fr)) (fetch_log (st fr)))
                (matches fr) (tried fr)).

Definition incr_tried : Exc.M Frame unit :=
  Exc.modify (fun fr => mkFrame (st fr) (matches fr) (tried fr + 1)).

(** [matches[(title, url)] = Recipe(title=title, url=url)] *)
Definition record_match (t u : pystr) : Exc.M Frame unit :=
  Exc.modify (fun fr =>
    mkFrame (st fr) (dict_set (t, u) (mkRecipe t u) (matches fr)) (tried fr)).

(** [want in hay] for both keywords. *)
Definition both_in (want_a want_b hay : pystr) : bool :=
  Str.str_in want_a hay && Str.str_in want_b hay.

(** The body of [for url in urls]. *)
Definition iteration (P : Params) (want_a want_b u : pystr)
  : Exc.M Frame ctl :=
  fr <- Exc.get ;;
  if tried fr >=? max_attempts P then Exc.ret Stop
  else if Z.of_nat (List.length (matches fr)) >=? Z.max 1 (target_matches P)
  then Exc.ret Stop
  else
    incr_tried ;;;
    r <- Exc.try_except
           (x <- call_fetch u (timeout_s P) ;; Exc.ret (Some x))
           is_request_exception
           (call_sleep (delay_s P) ;;; Exc.ret None) ;;
    match r with
    | None => Exc.ret Next
    | Some (t, tags_text) =>
        let hay := Str.lower tags_text in
        (if both_in want_a want_b hay then record_match t u else Exc.ret tt) ;;;
        call_sleep (delay_s P) ;;;
        Exc.ret Next
    end.

Fixpoint for_urls (P : Params) (want_a want_b : pystr) (urls : list pystr)
  : Exc.M Frame unit :=
  match urls with
  | [] => Exc.ret tt
  | u :: rest =>
      c <- iteration P want_a want_b u ;;
      match c with
      | Stop => Exc.ret tt
      | Next => for_urls P want_a want_b rest
      end
  end.

(** [random.Random(seed).shuffle(urls)] with a seed, [random.shuffle(urls)]
    on the module-level generator without. *)
Definition shuffle_urls (sd : option Z) (urls : list pystr)
  : Exc.M (State World G) (list pystr) :=
  fun s =>
    match sd with
    | Some n => (Ok (fst (shuffle urls (rng_seed n))), s)
    | None =>
        let (urls', g) := shuffle urls (global_rng s) in
        (Ok urls', mkState (net s) g (fetch_log s))
    end.


(** The [try: for ... except KeyboardInterrupt: print(...)] block followed
    by [return list(matches.values())], on the shuffled candidates. *)
Definition sample (P : Params) (want_a want_b : pystr) (urls : list pystr)
  : Exc.M (State World G) (list Recipe) :=
  fun s =>
    let blk := Exc.try_except (for_urls P want_a want_b urls)
                              is_keyboard_interrupt
                              (call_print interrupt_notice) in
    match blk (mkFrame s [] 0) with
    | (Ok _, fr) => (Ok (dict_values (matches fr)), st fr)
    | (Raise e, fr) => (Raise e, st fr)
    end.

Definition scrape_recipes (P : Params) : Exc.M (State World G) (list Recipe) :=
  urls <- lift_net (_get_recipe_urls_from_sitemap
                      (sitemap_url P) (max_sitemap_urls P) (timeout_s P)) ;;
  match urls with
  | [] => Exc.ret []
  | _ =>
      shuffled <- shuffle_urls (seed P) urls ;;
      sample P (want_a P) (want_b P) shuffled
  end.

(** ** Picker *)

Definition no_candidates : exn :=
  RuntimeError "Geen recepten gevonden binnen het aantal pogingen. Verhoog max_attempts of maak de filters ruimer.".

Definition pick_random_recipe (recipes : list Recipe)
  : Exc.M (State World G) Recipe :=
  fun s =>
    match recipes with
    | [] => (Raise no_candidates, s)
    | _ =>
        let (r, g) := choice recipes (global_rng s) in
        (r, mkState (net s) g (fetch_log s))
    end.

End Sampler.

Arguments Frame : clear implicits.

(** [P] with other filter keywords. *)
Definition with_keywords (P : Params) (a b : pystr) : Params :=
  mkParams (sitemap_url P) a b (max_sitemap_urls P) (max_attempts P)
           (target_matches P) (delay_s P) (timeout_s P) (seed P).

(** The defaults of [scrape_recipes]. *)
Definition default_params : Params :=
  mkParams (py "https://www.ah.nl/sitemaps/entities/allerhande/recipes.xml")
           (py "koken") (py "hoofdgerecht") 8000 60 1 600 14000 None.

(** ** A scripted world and a small generator, to run the model *)

(** Canned replies: one sitemap response, a fixed mapping from URLs to
    page responses (an unknown URL is a transport failure), the outcomes
    of the successive sleeps (uneventful once the list is used up), and
    whether the standard output encodes ASCII only. *)
Record Script : Type := mkScript {
  sitemap_reply : result sitemap_response;
  pages : list (pystr * result (pystr * pystr));
  sleeps : list (result unit);
  stdout_ascii : bool
}.

(** [print] on a standard output with the given encoding ([errors] is
    ["strict"], the default for [sys.stdout]). *)
Definition print_to (ascii_only : bool) (msg : pystr) : result unit :=
  if ascii_only && existsb (fun c => (128 <=? c)%N) msg
  then Raise UnicodeEncodeError else Ok tt.

Fixpoint lookup_page (u : pystr) (ps : list (pystr * result (pystr * pystr)))
  : result (pystr * pystr) :=
  match ps with
  | [] => Raise RequestException
  | (u', r) :: ps' => if Str.eqb u u' then r else lookup_page u ps'
  end.

#[export] Instance script_network : Network Script := {|
  session_get_sitemap := fun _ _ w => (sitemap_reply w, w);
  fetch_page := fun u _ w => (lookup_page u (pages w), w);
  sleep := fun _ w =>
    match sleeps w with
    | [] => (Ok tt, w)
    | r :: rest => (r, mkScript (sitemap_reply w) (pages w) rest (stdout_ascii w))
    end;
  print_line := fun msg w => (print_to (stdout_ascii w) msg, w)
|}.

(** The case mapping on the ASCII range: [A]..[Z] to [a]..[z].  It is
    [str.lower] on text of that range, which is all the examples use. *)
Definition ascii_lower_char (c : char) : char :=
  if ((65 <=? c) && (c <=? 90))%N then (c + 32)%N else c.

Definition ascii_lower : Str.Lower := {|
  Str.lower := map ascii_lower_char;
  Str.lower_nil := eq_refl
|}.

(** A linear congruential generator. *)
Definition lcg_next (g : Z) : Z := (g * 1103515245 + 12345) mod 2147483648.

Definition lcg_below (n : nat) (g : Z) : nat * Z :=
  (Z.to_nat (g mod Z.of_nat n), lcg_next g).

#[export] Instance lcg : RandomGen Z.
Proof.
  refine {| rng_seed := fun n => n mod 2147483648; randbelow := lcg_below |}.
  intros n g Hn. unfold lcg_below. cbn [fst].
  pose proof (Z.mod_pos_bound g (Z.of_nat n)). lia.
Defined.

Definition loc_elem (u : pystr) : element := mkElement (py "loc") (Some u).

Definition url_a : pystr := (py "https://www.ah.nl/allerhande/recept/R-R1/a").
Definition url_b : pystr := (py "https://www.ah.nl/allerhande/recept/R-R2/b").
Definition url_c : pystr := (py "https://www.ah.nl/allerhande/recept/R-R3/c").

Definition sitemap_of (us : list pystr) : result sitemap_response :=
  Ok (mkSitemap (map loc_elem us) None (Ok (map loc_elem us))).

Definition start (w : Script) (g : Z) : State Script Z := mkState w g [].

(** Three candidates: a main course that is boiled, a cake, and a page
    that cannot be fetched. *)
Definition pages_demo : list (pystr * result (pystr * pystr)) :=
  [(url_a, Ok ((py "Soep"), (py "Koken | Hoofdgerecht")));
   (url_b, Ok ((py "Taart"), (py "bakken | nagerecht")));
   (url_c, Raise RequestException)].

Definition world_demo : Script :=
  mkScript (sitemap_of [url_a; url_b; url_c]) pages_demo [] false.

(** The same, with Ctrl+C pressed during the second sleep. *)
Definition world_interrupted : Script :=
  mkScript (sitemap_of [url_a; url_b; url_c]) pages_demo
           [Ok tt; Raise KeyboardInterrupt] false.

(** The same again, on a standard output that encodes ASCII only. *)
Definition world_interrupted_ascii : Script :=
  mkScript (sitemap_of [url_a; url_b; url_c]) pages_demo
           [Ok tt; Raise KeyboardInterrupt] true.

Definition world_empty : Script := mkScript (sitemap_of []) [] [] false.

(** The defaults, with another budget, target and seed. *)
Definition params_demo (budget target : Z) (sd : option Z) : Params :=
  mkParams (sitemap_url default_params) (py "koken") (py "hoofdgerecht") 8000 budget
           target 600 14000 sd.

(** A sitemap whose stream raises [ParseError] after the first location;
    the fallback parse then gives three locations, the first of them the
    one already read. *)
Definition world_broken_stream : Script :=
  mkScript (Ok (mkSitemap [loc_elem url_a] (Some ParseError)
                          (Ok (map loc_elem [url_a; url_b; url_c]))))
           pages_demo [] false.

(** ** Vocabulary of the properties *)

(** [needle] occurs in [hay]: some text, then [needle], then some text. *)
Definition occurs_in (needle hay : pystr) : Prop :=
  exists pre post, hay = (pre ++ needle ++ post).

(** [u] is a recipe detail page. *)
Definition has_marker (u : pystr) : Prop := occurs_in recipe_marker u.

(** Every value of the match set is the recipe its key names. *)
Definition keyed (d : match_set) : Prop :=
  Forall (fun kv => snd kv = mkRecipe (fst (fst kv)) (snd (fst kv))) d.

(** The recipe [k] names was fetched, in the requests [log], with both
    keywords in its lower-cased haystack. *)
Definition matched `{Str.Lower} (want_a want_b : pystr)
           (log : list fetch_event) (k : key) : Prop :=
  exists tags_text,
    In (snd k, Ok (fst k, tags_text)) log
    /\ occurs_in want_a (Str.lower tags_text)
    /\ occurs_in want_b (Str.lower tags_text).

(** The frame [fr] in a process whose module-level generator is [g]. *)
Definition with_rng {World G : Type} (g : G) (fr : Frame World G)
  : Frame World G :=
  mkFrame (mkState (net (st fr)) g (fetch_log (st fr))) (matches fr) (tried fr).

(** ** Page fetcher

    What [BeautifulSoup] and [json.loads] hand to the code of
    [_fetch_recipe_title_and_tags]: the text of the first [h1] and of the
    [title] element when the page has them, the [application/ld+json]
    scripts, and the visible text of the page. *)

(** A JSON value as [json.loads] returns it.  A number is kept as the
    text [str] gives for it; a [dict] is the list of its items. *)
Local Unset Elimination Schemes.
Inductive json : Type :=
| JNull
| JBool (b : bool)
| JNumber (shown : pystr)
| JString (s : pystr)
| JArray (items : list json)
| JObject (fields : list (pystr * json)).
Local Set Elimination Schemes.

(** A script element: [s.string] is missing or empty, or [json.loads]
    raises [JSONDecodeError] on it, or it decodes, or [json.loads] raises
    something else ([ValueError] on an integer of too many digits,
    [RecursionError]), which nothing catches. *)
Inductive ld_script : Type :=
| NoString
| Undecodable
| Decoded (data : json)
| LoadsRaises (e : exn).

(** The exception that ends the loop over the scripts, if one does. *)
Fixpoint first_raise (scripts : list ld_script) : option exn :=
  match scripts with
  | [] => None
  | LoadsRaises e :: _ => Some e
  | _ :: rest => first_raise rest
  end.

Record html_page : Type := mkPage {
  h1_text : option pystr;
  title_text : option pystr;
  ld_json : list ld_script;
  body_text : pystr
}.

(** [item.get(k)] *)
Fixpoint dict_get (k : pystr) (fields : list (pystr * json)) : option json :=
  match fields with
  | [] => None
  | (k', v) :: rest => if Str.eqb k k' then Some v else dict_get k rest
  end.

Definition is_string (v : json) (s : pystr) : bool :=
  match v with JString s' => Str.eqb s' s | _ => false end.

(** [item.get("@type") in ("Recipe", ["Recipe"], ["Thing", "Recipe"])] *)
Definition is_recipe_type (v : option json) : bool :=
  match v with
  | Some (JString s) => Str.eqb s (py "Recipe")
  | Some (JArray [a]) => is_string a (py "Recipe")
  | Some (JArray [a; b]) => is_string a (py "Thing") && is_string b (py "Recipe")
  | _ => false
  end.

Section Fetcher.
(** [str(x)] for a value that is not a string. *)
Variable render : json -> pystr.

(** [str(x)] *)
Definition str_of (x : json) : pystr :=
  match x with JString s => s | _ => render x end.

(** What a [keywords] or [recipeCategory] field adds to [tags_bits]. *)
Definition field_bits (v : option json) : list pystr :=
  match v with
  | Some (JString s) => [s]
  | Some (JArray l) => map str_of l
  | _ => []
  end.

Definition item_bits (item : json) : list pystr :=
  match item with
  | JObject fields =>
      if is_recipe_type (dict_get (py "@type") fields)
      then field_bits (dict_get (py "keywords") fields)
           ++ field_bits (dict_get (py "recipeCategory") fields)
      else []
  | _ => []
  end.

Definition script_bits (s : ld_script) : list pystr :=
  match s with
  | Decoded data =>
      let items := match data with JArray l => l | _ => [data] end in
      flat_map item_bits items
  | _ => []
  end.

(** [tags_bits] when the function returns. *)
Definition tags_bits (doc : html_page) : list pystr :=
  flat_map script_bits (ld_json doc) ++ [body_text doc].

(** [sep.join(l)] *)
Fixpoint join (sep : pystr) (l : list pystr) : pystr :=
  match l with
  | [] => []
  | x :: rest =>
      match rest with
      | [] => x
      | _ => (x ++ sep ++ join sep rest)
      end
  end.

(** [" | ".join([t for t in tags_bits if t])] *)
Definition tags_text (doc : html_page) : pystr :=
  join (py " | ") (filter Str.truthy (tags_bits doc)).

(** The title: the first [h1], else the [title] element, trimmed, else the
    URL. *)
Definition page_title (u : pystr) (doc : html_page) : pystr :=
  let t0 := match h1_text doc with Some t => t | None => [] end in
  let t1 := if Str.truthy t0 then t0
            else match title_text doc with Some t => t | None => t0 end in
  let t2 := Str.strip t1 in
  if Str.truthy t2 then t2 else u.

End Fetcher.

(** The network seen one level down: the page request returns the parsed
    document instead of the pair the page fetcher makes of it. *)
Class Web (World : Type) : Type := {
  web_get_sitemap : pystr -> seconds -> World -> result sitemap_response * World;
  (** [session.get(url, ...)], [raise_for_status] and the parse *)
  web_get_page : pystr -> seconds -> World -> result html_page * World;
  web_sleep : seconds -> World -> result unit * World;
  web_print : pystr -> World -> result unit * World
}.

Section FetcherCall.
Context {World : Type} `{Web World}.
Variable render : json -> pystr.
Local Open Scope exc_scope.

Definition _fetch_recipe_title_and_tags (u : pystr) (timeout_s : seconds)
  : Exc.M World (pystr * pystr) :=
  doc <- web_get_page u timeout_s ;;
  match first_raise (ld_json doc) with
  | Some e => Exc.raise e
  | None => Exc.ret (page_title u doc, tags_text render doc)
  end.

(** The network of the sampler, with the page fetcher of the source in
    it. *)
Definition web_network : Network World := {|
  session_get_sitemap := web_get_sitemap;
  fetch_page := _fetch_recipe_title_and_tags;
  sleep := web_sleep;
  print_line := web_print
|}.

End FetcherCall.

(** ** Command line entry point *)


Section Main.
Context {World G : Type} `{Network World} `{RandomGen G} `{Str.Lower}.
Local Open Scope exc_scope.


End Main.

(** ** What the reader reads, said without a loop *)

(** The URL a location element contributes, if any. *)
Definition recipe_loc (el : element) : option pystr :=
  match text el with
  | Some t =>
      if Str.endswith (tag el) (py "loc") && Str.truthy t
         && Str.str_in recipe_marker (Str.strip t)
      then Some (Str.strip t) else None
  | None => None
  end.

Fixpoint recipe_locs (elems : list element) : list pystr :=
  match elems with
  | [] => []
  | el :: rest =>
      match recipe_loc el with
      | Some u => u :: recipe_locs rest
      | None => recipe_locs rest
      end
  end.

(** What the reader returns for a response, with a cap of at least one:
    the first [max_urls] recipe URLs of the stream; when the stream raises
    [ParseError] before the cap is reached, those it gave followed by the
    recipe URLs of what the fallback parse yields, up to the cap; when the
    stream raises anything else before the cap is reached, that
    exception. *)
Definition sitemap_urls (max_urls : Z) (resp : sitemap_response)
  : result (list pystr) :=
  let cap := Z.to_nat max_urls in
  let streamed := recipe_locs (stream_elems resp) in
  if (cap <=? List.length streamed)%nat then Ok (firstn cap streamed)
  else
    match stream_end resp with
    | None => Ok streamed
    | Some e =>
        if is_parse_error e then
          match document resp with
          | Ok root =>
              Ok (streamed
                  ++ firstn (cap - List.length streamed) (recipe_locs root))
          | Raise e' => Raise e'
          end
        else Raise e
    end.

(** [fields] is an item of the structured data of the page: a script
    decodes to it, or to a list that holds it. *)
Definition ld_item (doc : html_page) (fields : list (pystr * json)) : Prop :=
  In (Decoded (JObject fields)) (ld_json doc)
  \/ exists items, In (Decoded (JArray items)) (ld_json doc)
                   /\ In (JObject fields) items.

(** [s] is the string under [k], or one of the strings of the list under
    [k]. *)
Definition field_has (fields : list (pystr * json)) (k s : pystr) : Prop :=
  dict_get k fields = Some (JString s)
  \/ exists l, dict_get k fields = Some (JArray l) /\ In (JString s) l.

(** A world where nothing goes wrong but a transport failure: pages are
    there or not, nobody presses Ctrl+C. *)
Record Calm : Type := mkCalm {
  calm_sitemap : result sitemap_response;
  calm_pages : list (pystr * (pystr * pystr))
}.

Fixpoint calm_lookup (u : pystr) (ps : list (pystr * (pystr * pystr)))
  : option (pystr * pystr) :=
  match ps with
  | [] => None
  | (u', p) :: ps' => if Str.eqb u u' then Some p else calm_lookup u ps'
  end.

#[export] Instance calm_network : Network Calm := {|
  session_get_sitemap := fun _ _ w => (calm_sitemap w, w);
  fetch_page := fun u _ w =>
    (match calm_lookup u (calm_pages w) with
     | Some p => Ok p
     | None => Raise RequestException
     end, w);
  sleep := fun _ w => (Ok tt, w);
  print_line := fun _ w => (Ok tt, w)
|}.

Definition calm_demo : Calm :=
  mkCalm (sitemap_of [url_a; url_b; url_c])
         [(url_b, ((py "Taart"), (py "bakken | nagerecht")))].

(** What one entry of the request history does to the match set, and the
    match set a history builds from nothing. *)
Definition replay_step `{Str.Lower} (want_a want_b : pystr) (d : match_set)
           (ev : fetch_event) : match_set :=
  match snd ev with
  | Ok (t, tags_text) =>
      if both_in want_a want_b (Str.lower tags_text)
      then dict_set (t, fst ev) (mkRecipe t (fst ev)) d
      else d
  | Raise _ => d
  end.

Definition replay `{Str.Lower} (want_a want_b : pystr) (log : list fetch_event)
  : match_set :=
  fold_left (replay_step want_a want_b) log [].

(** A sitemap that lists the same page twice, and one that is down. *)
Definition world_twice : Script :=
  mkScript (sitemap_of [url_a; url_a]) pages_demo [] false.

Definition world_down : Script := mkScript (Raise RequestException) [] [] false.

Definition resp_broken_stream : sitemap_response :=
  mkSitemap [loc_elem url_a] (Some ParseError)
            (Ok (map loc_elem [url_a; url_b; url_c])).

(** A location padded with a line feed, spaces and a no-break space
    (U+00A0), as a pretty-printed sitemap has them. *)
Definition loc_padded : element :=
  mkElement (py "loc")
            (Some ([0xa; 0x20; 0xa0]%N ++ url_b ++ [0xa0; 0x20; 0xa]%N)).

Definition world_padded : Script :=
  mkScript (Ok (mkSitemap [loc_elem url_a; loc_padded] None
                          (Ok [loc_elem url_a; loc_padded])))
           pages_demo [] false.

(** A site that serves documents: a scripted world for [Web]. *)
Record Site : Type := mkSite {
  site_sitemap : result sitemap_response;
  site_pages : list (pystr * result html_page);
  site_sleeps : list (result unit)
}.

Fixpoint lookup_document (u : pystr) (ps : list (pystr * result html_page))
  : result html_page :=
  match ps with
  | [] => Raise RequestException
  | (u', r) :: ps' => if Str.eqb u u' then r else lookup_document u ps'
  end.

#[export] Instance site_web : Web Site := {|
  web_get_sitemap := fun _ _ w => (site_sitemap w, w);
  web_get_page := fun u _ w => (lookup_document u (site_pages w), w);
  web_sleep := fun _ w =>
    match site_sleeps w with
    | [] => (Ok tt, w)
    | r :: rest => (r, mkSite (site_sitemap w) (site_pages w) rest)
    end;
  web_print := fun _ w => (Ok tt, w)
|}.

(** [str] of the scalars; containers are not needed by the examples. *)
Definition render_demo (x : json) : pystr :=
  match x with
  | JNull => (py "None")
  | JBool true => (py "True")
  | JBool false => (py "False")
  | JNumber shown => shown
  | _ => []
  end.

(** A recipe page with structured data, and a page with none and no
    heading. *)
Definition doc_soup : html_page :=
  mkPage (Some (py "Tomatensoep")) (Some (py "Tomatensoep - Allerhande"))
    [Decoded (JObject [((py "@type"), JString (py "Recipe"));
                       ((py "keywords"), JArray [JString (py "Koken"); JString (py "soep")]);
                       ((py "recipeCategory"), JString (py "Hoofdgerecht"))])]
    (py "Tomatensoep Bereiding").

Definition doc_bare : html_page :=
  mkPage None None [Undecodable; NoString] (py "Appeltaart bakken nagerecht").

Definition site_demo : Site :=
  mkSite (sitemap_of [url_a; url_b; url_c])
         [(url_a, Ok doc_soup); (url_b, Ok doc_bare)] [].

(** [u] is not empty and has no white space at either end. *)
Definition trimmed_url (u : pystr) : Prop := u <> [] /\ Str.clean_ends u.

(** * Properties *)

(** ** Strings *)

Lemma str_eqb_eq (a b : pystr) : Str.eqb a b = true <-> a = b.
Proof.
  revert b. induction a as [|x a IH]; intros [|y b]; cbn; try (split; congruence).
  rewrite andb_true_iff, N.eqb_eq, IH. split.
  - now intros [-> ->].
  - intros E. now injection E.
Qed.

Lemma is_prefix_spec (p s : pystr) :
  Str.is_prefix p s = true <-> exists post, s = (p ++ post).
Proof.
  revert s. induction p as [|a p IH]; intros s; cbn.
  - split; [intros _; now exists s | reflexivity].
  - destruct s as [|b s].
    + split; [discriminate | intros [post E]; discriminate].
    + rewrite andb_true_iff, N.eqb_eq, IH. split.
      * intros [-> [post ->]]. now exists post.
      * intros [post E]. injection E as -> ->. split; [reflexivity | now exists post].
Qed.

Lemma str_in_spec (needle hay : pystr) :
  Str.str_in needle hay = true <-> occurs_in needle hay.
Proof.
  unfold occurs_in. induction hay as [|c hay IH]; cbn [Str.str_in].
  - rewrite orb_false_r, is_prefix_spec. split.
    + intros [post E]. now exists [], post.
    + intros [pre [post E]]. destruct pre; cbn in E.
      * now exists post.
      * discriminate.
  - rewrite orb_true_iff, is_prefix_spec, IH. split.
    + intros [[post E] | [pre [post E]]].
      * now exists [], post.
      * exists (c :: pre), post. cbn. now rewrite E.
    + intros [pre [post E]]. destruct pre as [|c' pre]; cbn in E.
      * left. now exists post.
      * right. injection E as _ E. now exists pre, post.
Qed.

Lemma str_in_empty (hay : pystr) : Str.str_in [] hay = true.
Proof. destruct hay; reflexivity. Qed.

Lemma lstrip_head (s : pystr) :
  Str.lstrip s = []
  \/ exists c r, Str.lstrip s = (c :: r) /\ Str.is_space c = false.
Proof.
  induction s as [|c s IH]; cbn.
  - now left.
  - destruct (Str.is_space c) eqn:E; [exact IH | right; now exists c, s].
Qed.

Lemma rstrip_keeps_head (c : char) (s : pystr) :
  Str.is_space c = false -> exists r, Str.rstrip (c :: s) = (c :: r).
Proof.
  intros E. cbn. destruct (Str.rstrip s).
  - rewrite E. now exists [].
  - eexists; reflexivity.
Qed.

Lemma rstrip_idem (s : pystr) : Str.rstrip (Str.rstrip s) = Str.rstrip s.
Proof.
  induction s as [|c s IH]; cbn; [reflexivity|].
  destruct (Str.rstrip s) as [|d r] eqn:E.
  - destruct (Str.is_space c) eqn:Ec; cbn; [reflexivity | now rewrite Ec].
  - cbn. cbn in IH. destruct (match Str.rstrip r with
                              | [] => _ | (a :: s0) => _ end) eqn:E2.
    + discriminate.
    + now rewrite IH.
Qed.

Lemma lstrip_nonspace_head (s : pystr) :
  (s = [] \/ exists c r, s = (c :: r) /\ Str.is_space c = false) ->
  Str.lstrip s = s.
Proof.
  intros [-> | [c [r [-> E]]]]; cbn; [reflexivity | now rewrite E].
Qed.

Lemma strip_idem (s : pystr) : Str.strip (Str.strip s) = Str.strip s.
Proof.
  unfold Str.strip.
  assert (L : Str.lstrip (Str.rstrip (Str.lstrip s)) = Str.rstrip (Str.lstrip s)).
  { apply lstrip_nonspace_head.
    destruct (lstrip_head s) as [-> | [c [r [-> E]]]].
    - now left.
    - right. destruct (@rstrip_keeps_head c r E) as [r' ->]. now exists c, r'. }
  rewrite L. apply rstrip_idem.
Qed.

Lemma lstrip_spaces_app (a s : pystr) :
  Str.all_space a = true -> Str.lstrip (a ++ s) = Str.lstrip s.
Proof.
  induction a as [|c a IH]; cbn; [reflexivity|].
  rewrite andb_true_iff. intros [-> Ha]. now apply IH.
Qed.

Lemma rstrip_spaces (b : pystr) :
  Str.all_space b = true -> Str.rstrip b = [].
Proof.
  induction b as [|c b IH]; cbn; [reflexivity|].
  rewrite andb_true_iff. intros [-> Hb]. now rewrite IH.
Qed.

Lemma rstrip_app_spaces (s b : pystr) :
  Str.all_space b = true -> Str.rstrip (s ++ b) = Str.rstrip s.
Proof.
  intros Hb. induction s as [|c s IH]; cbn.
  - now apply rstrip_spaces.
  - now rewrite IH.
Qed.

Lemma lstrip_spaces (b : pystr) :
  Str.all_space b = true -> Str.lstrip b = [].
Proof.
  induction b as [|c b IH]; cbn; [reflexivity|].
  rewrite andb_true_iff. intros [-> Hb]. now apply IH.
Qed.

Lemma strip_app_spaces (s b : pystr) :
  Str.all_space b = true -> Str.strip (s ++ b) = Str.strip s.
Proof.
  unfold Str.strip. intros Hb. induction s as [|c s IH]; cbn.
  - now rewrite lstrip_spaces.
  - destruct (Str.is_space c); [exact IH|].
    apply (@rstrip_app_spaces (c :: s) b Hb).
Qed.

(** White space around a keyword is what [strip] removes. *)
Lemma strip_surrounded (a s b : pystr) :
  Str.all_space a = true -> Str.all_space b = true ->
  Str.strip (a ++ s ++ b) = Str.strip s.
Proof.
  intros Ha Hb. unfold Str.strip. rewrite lstrip_spaces_app by exact Ha.
  now apply strip_app_spaces.
Qed.

Lemma strip_all_space (s : pystr) :
  Str.all_space s = true -> Str.strip s = [].
Proof. intros Hs. unfold Str.strip. now rewrite lstrip_spaces. Qed.

Lemma rstrip_clean (s : pystr) :
  forall d, Str.rstrip s <> [] -> Str.is_space (last (Str.rstrip s) d) = false.
Proof.
  induction s as [|c s IH]; intros d; cbn [Str.rstrip]; [congruence|].
  destruct (Str.rstrip s) as [|x r] eqn:E.
  - destruct (Str.is_space c) eqn:Ec; [congruence | intros _; exact Ec].
  - intros _. change (last (c :: x :: r) d) with (last (x :: r) d).
    apply IH. discriminate.
Qed.

(** What [strip] returns has no white space at either end. *)
Lemma strip_clean_ends (s : pystr) : Str.clean_ends (Str.strip s).
Proof.
  unfold Str.strip, Str.clean_ends.
  destruct (Str.rstrip (Str.lstrip s)) as [|c r] eqn:E; [exact I|].
  split.
  - destruct (lstrip_head s) as [El | (c0 & r0 & El & Hc)].
    + rewrite El in E. discriminate.
    + rewrite El in E. destruct (@rstrip_keeps_head c0 r0 Hc) as [r' Er].
      rewrite Er in E. injection E as <- _. exact Hc.
  - rewrite <- E. apply rstrip_clean. rewrite E. discriminate.
Qed.

Lemma lstrip_split (s : pystr) :
  exists la, Str.all_space la = true /\ s = la ++ Str.lstrip s.
Proof.
  induction s as [|c s (la & Hla & E)]; cbn [Str.lstrip].
  - now exists [].
  - destruct (Str.is_space c) eqn:Ec.
    + exists (c :: la). cbn. rewrite Ec, Hla. split; [reflexivity|].
      now rewrite <- E.
    + now exists [].
Qed.

Lemma rstrip_split (s : pystr) :
  exists ra, Str.all_space ra = true /\ s = Str.rstrip s ++ ra.
Proof.
  induction s as [|c s (ra & Hra & E)]; cbn [Str.rstrip].
  - now exists [].
  - destruct (Str.rstrip s) as [|x r] eqn:Er.
    + cbn in E. destruct (Str.is_space c) eqn:Ec.
      * exists (c :: ra). cbn. rewrite Ec, Hra. split; [reflexivity|].
        now rewrite <- E.
      * exists ra. split; [exact Hra|]. cbn. now rewrite <- E.
    + exists ra. split; [exact Hra|]. cbn. cbn in E. now rewrite <- E.
Qed.

(** [strip] takes white space from the two ends and nothing else. *)
Lemma strip_split (s : pystr) :
  exists la ra,
    Str.all_space la = true /\ Str.all_space ra = true
    /\ s = la ++ Str.strip s ++ ra.
Proof.
  destruct (lstrip_split s) as (la & Hla & El).
  destruct (rstrip_split (Str.lstrip s)) as (ra & Hra & Er).
  exists la, ra. unfold Str.strip. split; [exact Hla|]. split; [exact Hra|].
  now rewrite <- Er.
Qed.

(** ** The match set *)

Lemma key_eqb_eq (a b : key) : key_eqb a b = true <-> a = b.
Proof.
  destruct a as [a1 a2], b as [b1 b2]. unfold key_eqb. cbn.
  rewrite andb_true_iff, !str_eqb_eq. split.
  - now intros [-> ->].
  - intros E. now injection E.
Qed.

Lemma dict_set_length (k : key) (v : Recipe) (d : match_set) :
  (List.length d <= List.length (dict_set k v d) <= S (List.length d))%nat.
Proof.
  induction d as [|[k' v'] d IH]; cbn.
  - lia.
  - destruct (key_eqb k k'); cbn; lia.
Qed.

Lemma dict_set_keys (k k0 : key) (v : Recipe) (d : match_set) :
  In k0 (dict_keys (dict_set k v d)) <-> k0 = k \/ In k0 (dict_keys d).
Proof.
  unfold dict_keys. induction d as [|[k' v'] d IH]; cbn.
  - intuition congruence.
  - destruct (key_eqb k k') eqn:E; cbn.
    + apply key_eqb_eq in E. subst k'. intuition congruence.
    + rewrite IH. intuition congruence.
Qed.

Lemma dict_set_keyed (t u : pystr) (d : match_set) :
  keyed d -> keyed (dict_set (t, u) (mkRecipe t u) d).
Proof.
  unfold keyed. induction d as [|[k' v'] d IH]; cbn; intros Hd.
  - constructor; [reflexivity | constructor].
  - inversion Hd as [|? ? Hk Hd']; subst.
    destruct (key_eqb (t, u) k') eqn:E.
    + apply key_eqb_eq in E. subst k'. constructor; [reflexivity | assumption].
    + constructor; [assumption | now apply IH].
Qed.

Lemma keyed_values (d : match_set) (t u : pystr) :
  keyed d -> (In (mkRecipe t u) (dict_values d) <-> In (t, u) (dict_keys d)).
Proof.
  unfold keyed, dict_values, dict_keys. intros Hd.
  induction Hd as [|[[t' u'] v] d Hv Hd IH]; cbn.
  - reflexivity.
  - cbn in Hv. subst v. rewrite IH. intuition congruence.
Qed.

(** The keys of a match set are pairwise distinct. *)
Lemma dict_set_nodup (k : key) (v : Recipe) (d : match_set) :
  NoDup (dict_keys d) -> NoDup (dict_keys (dict_set k v d)).
Proof.
  unfold dict_keys. induction d as [|[k' v'] d IH]; cbn; intros Hd.
  - constructor; [intros [] | constructor].
  - inversion Hd as [|? ? Hn Hd']; subst.
    destruct (key_eqb k k') eqn:E; cbn.
    + constructor; assumption.
    + constructor; [|now apply IH].
      intros Hin. apply (dict_set_keys k k' v d) in Hin as [-> | Hin].
      * assert (key_eqb k k = true) by now apply key_eqb_eq. congruence.
      * now apply Hn.
Qed.

(** ** Shuffle *)

Lemma list_set_length {A} (i : nat) (v : A) (l : list A) :
  List.length (list_set i v l) = List.length l.
Proof.
  revert i. induction l as [|a l IH]; intros [|i]; cbn; auto.
Qed.

Lemma swap_length {A} (i j : nat) (x : list A) :
  List.length (swap i j x) = List.length x.
Proof.
  unfold swap. destruct (nth_error x j), (nth_error x i); auto.
  now rewrite !list_set_length.
Qed.

Lemma shuffle_from_length {G} `{RandomGen G} {A} (i : nat) (x : list A) (g : G) :
  List.length (fst (shuffle_from i x g)) = List.length x.
Proof.
  revert x g. induction i as [|i IH]; intros x g; cbn [shuffle_from].
  - reflexivity.
  - destruct (randbelow (S (S i)) g) as [j g']. rewrite IH. apply swap_length.
Qed.

Lemma shuffle_length {G} `{RandomGen G} {A} (x : list A) (g : G) :
  List.length (fst (shuffle x g)) = List.length x.
Proof. apply shuffle_from_length. Qed.

(** ** Sitemap reader *)

Lemma scan_locs_marker (max_urls : Z) (elems : list element) (urls : list pystr) :
  Forall has_marker urls ->
  Forall has_marker (fst (scan_locs max_urls elems urls)).
Proof.
  revert urls. induction elems as [|el rest IH]; intros urls Hu; cbn [scan_locs].
  - exact Hu.
  - destruct (text el) as [t|]; [|now apply IH].
    destruct (Str.endswith (tag el) (py "loc") && Str.truthy t); [|now apply IH].
    destruct (Str.str_in recipe_marker (Str.strip t)) eqn:Em; [|now apply IH].
    assert (Hu' : Forall has_marker (urls ++ [Str.strip t])).
    { apply Forall_app. split; [exact Hu|].
      constructor; [now apply str_in_spec | constructor]. }
    destruct (Z.of_nat (List.length (urls ++ [Str.strip t])) >=? max_urls);
      [exact Hu' | now apply IH].
Qed.

(** Below the cap on entry, the loop ends at the cap at the latest, and it
    leaves through [break] exactly when the cap is reached. *)
Lemma scan_locs_bound (max_urls : Z) (elems : list element) (urls : list pystr) :
  Z.of_nat (List.length urls) < max_urls ->
  let out := scan_locs max_urls elems urls in
  Z.of_nat (List.length (fst out)) <= max_urls
  /\ (snd out <> None <-> Z.of_nat (List.length (fst out)) = max_urls)
  /\ (snd out = None -> Z.of_nat (List.length (fst out)) < max_urls).
Proof.
  revert urls. induction elems as [|el rest IH]; intros urls Hu; cbn [scan_locs].
  - cbn. repeat split; try lia; intros; try congruence; lia.
  - destruct (text el) as [t|]; [|now apply IH].
    destruct (Str.endswith (tag el) (py "loc") && Str.truthy t); [|now apply IH].
    destruct (Str.str_in recipe_marker (Str.strip t)); [|now apply IH].
    destruct (Z.of_nat (List.length (urls ++ [Str.strip t])) >=? max_urls) eqn:E.
    + cbn. rewrite Z.geb_le in E. rewrite length_app in *. cbn in *.
      repeat split; intros; try congruence; try lia.
    + apply IH. rewrite Z.geb_leb, Z.leb_gt in E. exact E.
Qed.

Section ReaderFacts.
Context {World : Type} `{Network World}.

(** With a cap of at least one, the reader returns at most [max_urls]
    URLs, on the streaming path and on the fallback path alike, and every
    one of them is a recipe detail page. *)
Lemma reader_bound (sm : pystr) (max_urls : Z) (t : seconds) (w w' : World)
      (urls : list pystr) :
  1 <= max_urls ->
  _get_recipe_urls_from_sitemap sm max_urls t w = (Ok urls, w') ->
  Z.of_nat (List.length urls) <= max_urls /\ Forall has_marker urls.
Proof.
  intros Hm. unfold _get_recipe_urls_from_sitemap, Exc.bind, Exc.ret, Exc.raise.
  destruct (session_get_sitemap sm t w) as [[resp|e] w1]; [|discriminate].
  pose proof (@scan_locs_bound max_urls (stream_elems resp) []) as Hb.
  pose proof (@scan_locs_marker max_urls (stream_elems resp) [] (Forall_nil _)) as Hk.
  cbn zeta in Hb. specialize (Hb ltac:(cbn; lia)).
  destruct (scan_locs max_urls (stream_elems resp) []) as [us [rest|]] eqn:Es;
    cbn [fst snd] in *.
  - intros E. injection E as <- <-. split; [apply Hb | exact Hk].
  - destruct (stream_end resp) as [e0|].
    + destruct (is_parse_error e0); [|discriminate].
      destruct (document resp) as [root|e]; [|discriminate].
      intros E. injection E as <- <-.
      destruct Hb as (_ & _ & Hlt). specialize (Hlt eq_refl).
      split.
      * now apply scan_locs_bound.
      * now apply scan_locs_marker.
    + intros E. injection E as <- <-. split; [apply Hb | exact Hk].
Qed.

End ReaderFacts.

(** ** The sampling loop *)

Lemma both_in_spec (want_a want_b hay : pystr) :
  both_in want_a want_b hay = true
  <-> occurs_in want_a hay /\ occurs_in want_b hay.
Proof. unfold both_in. now rewrite andb_true_iff, !str_in_spec. Qed.

Lemma matched_nil `{Str.Lower} (a b : pystr) (k : key) : ~ matched a b [] k.
Proof. intros [tags [[] _]]. Qed.

Lemma matched_app `{Str.Lower} (a b : pystr) (l1 l2 : list fetch_event) (k : key) :
  matched a b (l1 ++ l2) k <-> matched a b l1 k \/ matched a b l2 k.
Proof.
  unfold matched. split.
  - intros [tags [Hin Hb]]. apply in_app_or in Hin as [Hin | Hin];
      [left | right]; now exists tags.
  - intros [[tags [Hin Hb]] | [tags [Hin Hb]]]; exists tags;
      (split; [apply in_or_app; auto | exact Hb]).
Qed.

Ltac nothing_new :=
  exists []; rewrite app_nil_r;
  split; [reflexivity|]; split; [cbn; lia|]; split; [cbn; lia|];
  split; [congruence|]; split; [lia|]; split; [auto|]; split; [|reflexivity];
  intros k; split; [now left | intros [Hk|Hk]; [exact Hk | now apply matched_nil in Hk]].

Ltac unfold_iteration :=
  unfold iteration, incr_tried, record_match, call_fetch, call_sleep,
    Exc.bind, Exc.try_except, Exc.get, Exc.ret, Exc.modify.

Section SamplerFacts.
Context {World G : Type} `{Network World} `{RandomGen G} `{Str.Lower}.

(** What one pass through the loop body does: either it breaks, touching
    nothing, or it makes exactly one page request and records the
    candidate exactly when the request succeeded with both keywords in the
    haystack. *)
Lemma iteration_spec (P : Params) (a b u : pystr) (fr fr' : Frame World G)
      (r : result ctl) :
  iteration P a b u fr = (r, fr') ->
  (r = Ok Stop /\ fr' = fr
   /\ (max_attempts P <= tried fr
       \/ Z.max 1 (target_matches P) <= Z.of_nat (List.length (matches fr))))
  \/ (tried fr < max_attempts P
      /\ Z.of_nat (List.length (matches fr)) < Z.max 1 (target_matches P)
      /\ r <> Ok Stop
      /\ tried fr' = tried fr + 1
      /\ global_rng (st fr') = global_rng (st fr)
      /\ exists o,
          fetch_log (st fr') = fetch_log (st fr) ++ [(u, o)]
          /\ matches fr' =
             match o with
             | Ok (t, tags_text) =>
                 if both_in a b (Str.lower tags_text)
                 then dict_set (t, u) (mkRecipe t u) (matches fr)
                 else matches fr
             | Raise _ => matches fr
             end).
Proof.
  unfold_iteration.
  destruct (tried fr >=? max_attempts P) eqn:Et.
  { intros E. injection E as <- <-. left. rewrite Z.geb_le in Et. auto. }
  destruct (Z.of_nat (List.length (matches fr)) >=? Z.max 1 (target_matches P)) eqn:Em.
  { intros E. injection E as <- <-. left. rewrite Z.geb_le in Em. auto. }
  rewrite Z.geb_leb, Z.leb_gt in Et, Em.
  intros E. right. split; [exact Et|]. split; [exact Em|]. cbn in E.
  destruct (fetch_page u (timeout_s P) (net (st fr))) as [[[t tags]|e] w] eqn:Ef;
    cbn in E.
  - destruct (both_in a b (Str.lower tags)) eqn:Eb; cbn in E;
      destruct (sleep (delay_s P) w) as [[[]|e] w2]; cbn in E;
      injection E as <- <-; cbn;
      (split; [discriminate|]); (split; [reflexivity|]); (split; [reflexivity|]);
      exists (Ok (t, tags)); rewrite Eb; auto.
  - destruct (is_request_exception e); cbn in E.
    + destruct (sleep (delay_s P) w) as [[[]|e2] w2]; cbn in E;
        injection E as <- <-; cbn;
        (split; [discriminate|]); (split; [reflexivity|]); (split; [reflexivity|]);
        exists (Raise e); auto.
    + injection E as <- <-; cbn.
      (split; [discriminate|]); (split; [reflexivity|]); (split; [reflexivity|]).
      exists (Raise e); auto.
Qed.

(** The invariant of the loop, from any frame: the requests made are new
    entries of the history, one per candidate at most; [tried] counts
    them and stays within the budget; the match set grows by the fetched
    candidates with both keywords and by nothing else, and its size stays
    under the threshold [max(1, target_matches)]. *)
Lemma for_urls_spec (P : Params) (a b : pystr) (urls : list pystr) :
  forall (fr fr' : Frame World G) (r : result unit),
  for_urls P a b urls fr = (r, fr') ->
  exists new,
    fetch_log (st fr') = fetch_log (st fr) ++ new
    /\ (List.length new <= List.length urls)%nat
    /\ tried fr' = tried fr + Z.of_nat (List.length new)
    /\ (new <> [] -> tried fr' <= max_attempts P)
    /\ Z.of_nat (List.length (matches fr'))
       <= Z.max (Z.of_nat (List.length (matches fr))) (Z.max 1 (target_matches P))
    /\ (keyed (matches fr) -> keyed (matches fr'))
    /\ (forall k, In k (dict_keys (matches fr'))
                  <-> In k (dict_keys (matches fr)) \/ matched a b new k)
    /\ global_rng (st fr') = global_rng (st fr).
Proof.
  induction urls as [|u rest IH]; intros fr fr' r; cbn [for_urls].
  - unfold Exc.ret. intros E. injection E as <- <-. nothing_new.
  - unfold Exc.bind at 1.
    destruct (iteration P a b u fr) as [c fr1] eqn:Ei.
    apply iteration_spec in Ei
      as [(-> & -> & _) | (Ht & Hm & Hns & Htr & Hg & o & Hlog & Hmat)].
    + unfold Exc.ret. intros E. injection E as <- <-. nothing_new.
    + assert (Hlen : Z.of_nat (List.length (matches fr1))
                     <= Z.max 1 (target_matches P)).
      { rewrite Hmat. destruct o as [[t tags]|e]; [|lia].
        destruct (both_in a b (Str.lower tags)); [|lia].
        pose proof (dict_set_length (t, u) (mkRecipe t u) (matches fr)). lia. }
      assert (Hkeyed : keyed (matches fr) -> keyed (matches fr1)).
      { rewrite Hmat. destruct o as [[t tags]|e]; auto.
        destruct (both_in a b (Str.lower tags)); auto. apply dict_set_keyed. }
      assert (Hkeys : forall k, In k (dict_keys (matches fr1))
                 <-> In k (dict_keys (matches fr)) \/ matched a b [(u, o)] k).
      { intros k. rewrite Hmat. destruct o as [[t tags]|e].
        - destruct (both_in a b (Str.lower tags)) eqn:Eb.
          + rewrite dict_set_keys. split.
            * intros [-> | Hk]; [right | now left].
              exists tags. cbn. split; [now left | now apply both_in_spec].
            * intros [Hk | [tags' [[E|[]] _]]]; [now right | left].
              injection E as E1 E2 E3. destruct k; cbn in *; congruence.
          + split; [now left|].
            intros [Hk | [tags' [[E|[]] Hb]]]; [exact Hk|].
            injection E as E1 E2 E3. subst tags'.
            apply both_in_spec in Hb. congruence.
        - split; [now left|].
          intros [Hk | [tags' [[E|[]] _]]]; [exact Hk | discriminate]. }
      assert (Hend : forall fr2 r2, (r2, fr2) = (r, fr') -> fr2 = fr1 ->
        exists new,
          fetch_log (st fr') = fetch_log (st fr) ++ new
          /\ (List.length new <= S (List.length rest))%nat
          /\ tried fr' = tried fr + Z.of_nat (List.length new)
          /\ (new <> [] -> tried fr' <= max_attempts P)
          /\ Z.of_nat (List.length (matches fr'))
             <= Z.max (Z.of_nat (List.length (matches fr))) (Z.max 1 (target_matches P))
          /\ (keyed (matches fr) -> keyed (matches fr'))
          /\ (forall k, In k (dict_keys (matches fr'))
                        <-> In k (dict_keys (matches fr)) \/ matched a b new k)
          /\ global_rng (st fr') = global_rng (st fr)).
      { intros fr2 r2 E ->. injection E as <- <-. exists [(u, o)].
        split; [exact Hlog|]. split; [cbn; lia|]. split; [cbn; lia|].
        split; [cbn; lia|]. split; [lia|]. split; [exact Hkeyed|].
        split; [exact Hkeys | exact Hg]. }
      destruct c as [[|]|e].
      * intros E. specialize (IH _ _ _ E)
          as (new & Hl & Hn & Htr2 & Hb & Hsz & Hkd & Hks & Hg2).
        exists ((u, o) :: new). cbn [List.length].
        split; [rewrite Hl, Hlog, <- app_assoc; reflexivity|].
        split; [lia|]. split; [lia|].
        split; [intros _; destruct new; [cbn in *; lia | apply Hb; discriminate]|].
        split; [lia|]. split; [auto|]. split; [|congruence].
        intros k. rewrite Hks, Hkeys.
        rewrite (matched_app a b [(u, o)] new k). tauto.
      * congruence.
      * intros E. now apply (Hend fr1 (Raise e)).
Qed.

End SamplerFacts.

(** ** The sampling run *)

Section RunFacts.
Context {World G : Type} `{Network World} `{RandomGen G} `{Str.Lower}.

(** The block around the loop: however the loop ends, the requests made
    are those of the loop, and a list that is returned holds the values
    of the match set as the loop left it. *)
Lemma sample_spec (P : Params) (a b : pystr) (urls : list pystr)
      (s s' : State World G) (r : result (list Recipe)) :
  sample P a b urls s = (r, s') ->
  exists new,
    fetch_log s' = fetch_log s ++ new
    /\ (List.length new <= List.length urls)%nat
    /\ (0 <= max_attempts P -> Z.of_nat (List.length new) <= max_attempts P)
    /\ global_rng s' = global_rng s
    /\ forall rs, r = Ok rs ->
         Z.of_nat (List.length rs) <= Z.max 1 (target_matches P)
         /\ forall t u, In (mkRecipe t u) rs <-> matched a b new (t, u).
Proof.
  unfold sample, Exc.try_except, Exc.ret.
  destruct (for_urls P a b urls (mkFrame s [] 0)) as [r0 fr] eqn:E.
  apply for_urls_spec in E
    as (new & Hlog & Hlen & Htr & Hb & Hsz & Hkd & Hks & Hg).
  cbn in Hlog, Htr, Hsz, Hkd, Hks, Hg.
  assert (Hrs : Z.of_nat (List.length (dict_values (matches fr)))
                <= Z.max 1 (target_matches P)
                /\ forall t u, In (mkRecipe t u) (dict_values (matches fr))
                               <-> matched a b new (t, u)).
  { split.
    - unfold dict_values. rewrite length_map. lia.
    - intros t u. rewrite keyed_values by (apply Hkd; constructor).
      rewrite Hks. tauto. }
  assert (Hbudget : 0 <= max_attempts P -> Z.of_nat (List.length new) <= max_attempts P).
  { intros HB. destruct new; [cbn; lia|]. specialize (Hb ltac:(discriminate)). lia. }
  destruct r0 as [[]|e].
  - intros E. injection E as <- <-. exists new.
    repeat (split; [assumption|]). intros rs E. now injection E as <-.
  - destruct (is_keyboard_interrupt e).
    + unfold call_print.
      destruct (print_line interrupt_notice (net (st fr))) as [[[]|e2] w];
        intros E; injection E as <- <-; cbn [fetch_log global_rng st matches];
        exists new; repeat (split; [assumption|]); intros rs E;
        [now injection E as <- | discriminate].
    + intros E. injection E as <- <-. exists new.
      repeat (split; [assumption|]). intros rs E. discriminate.
Qed.

Lemma shuffle_urls_ok (sd : option Z) (urls : list pystr) (s : State World G) :
  exists sh s2,
    shuffle_urls sd urls s = (Ok sh, s2)
    /\ List.length sh = List.length urls
    /\ net s2 = net s /\ fetch_log s2 = fetch_log s
    /\ (forall n, sd = Some n -> s2 = s /\ sh = fst (shuffle urls (rng_seed n))).
Proof.
  unfold shuffle_urls. destruct sd as [n|].
  - exists (fst (shuffle urls (rng_seed n))), s.
    split; [reflexivity|]. split; [apply shuffle_length|].
    split; [reflexivity|]. split; [reflexivity|].
    intros m E. injection E as <-. auto.
  - pose proof (shuffle_length urls (global_rng s)) as Hl.
    destruct (shuffle urls (global_rng s)) as [sh g]. cbn in Hl.
    exists sh, (mkState (net s) g (fetch_log s)).
    split; [reflexivity|]. split; [exact Hl|].
    split; [reflexivity|]. split; [reflexivity|]. discriminate.
Qed.

(** The three ways through [scrape_recipes]: the sitemap request raises;
    the reader returns no candidate; the candidates are shuffled and
    sampled. *)
Lemma scrape_recipes_inv (P : Params) (s s' : State World G)
      (r : result (list Recipe)) :
  scrape_recipes P s = (r, s') ->
  let reader := _get_recipe_urls_from_sitemap
                  (sitemap_url P) (max_sitemap_urls P) (timeout_s P) (net s) in
  (exists e, fst reader = Raise e /\ r = Raise e
             /\ s' = mkState (snd reader) (global_rng s) (fetch_log s))
  \/ (fst reader = Ok [] /\ r = Ok []
      /\ s' = mkState (snd reader) (global_rng s) (fetch_log s))
  \/ (exists urls sh s2,
        fst reader = Ok urls /\ urls <> []
        /\ shuffle_urls (seed P) urls
             (mkState (snd reader) (global_rng s) (fetch_log s)) = (Ok sh, s2)
        /\ sample P (want_a P) (want_b P) sh s2 = (r, s')).
Proof.
  unfold scrape_recipes, lift_net. unfold Exc.bind at 1. cbn zeta.
  destruct (_get_recipe_urls_from_sitemap (sitemap_url P) (max_sitemap_urls P)
              (timeout_s P) (net s)) as [[urls|e] w]; cbn [fst snd].
  - destruct urls as [|u0 urls].
    + unfold Exc.ret. intros E. injection E as <- <-. right. left. auto.
    + unfold Exc.bind.
      destruct (shuffle_urls_ok (seed P) (u0 :: urls)
                  (mkState w (global_rng s) (fetch_log s)))
        as (sh & s2 & Esh & _).
      rewrite Esh. intros E. right. right.
      exists (u0 :: urls), sh, s2. repeat split; auto. discriminate.
  - intros E. injection E as <- <-. left. exists e. auto.
Qed.

(** The result of a run, read off the request history: the recipes
    returned are those of the pages fetched with both keywords in the
    haystack. *)
Lemma scrape_recipes_matches (P : Params) (s s' : State World G)
      (rs : list Recipe) :
  scrape_recipes P s = (Ok rs, s') ->
  exists new,
    fetch_log s' = fetch_log s ++ new
    /\ forall t u, In (mkRecipe t u) rs <-> matched (want_a P) (want_b P) new (t, u).
Proof.
  intros E. apply scrape_recipes_inv in E
    as [(e & _ & E & _) | [(_ & E & ->) | (urls & sh & s2 & _ & _ & Esh & E)]].
  - discriminate.
  - injection E as ->. exists []. cbn. rewrite app_nil_r. split; [reflexivity|].
    intros t u. split; [intros [] | intros (tags & [] & _)].
  - destruct (shuffle_urls_ok (seed P) urls
                (mkState (snd (_get_recipe_urls_from_sitemap (sitemap_url P)
                                 (max_sitemap_urls P) (timeout_s P) (net s)))
                         (global_rng s) (fetch_log s)))
      as (sh' & s2' & Esh' & _ & _ & Hlog & _).
    rewrite Esh in Esh'. injection Esh' as <- <-. cbn in Hlog.
    apply sample_spec in E as (new & Hl & _ & _ & _ & Hrs).
    exists new. split; [congruence|].
    intros t u. destruct (Hrs rs eq_refl) as [_ Hm]. apply Hm.
Qed.

End RunFacts.

(** ** The keywords only matter through [strip] and [lower] *)

Section KeywordFacts.
Context {World G : Type} `{Network World} `{RandomGen G} `{Str.Lower}.

Lemma for_urls_with_keywords (P : Params) (x y a b : pystr) (urls : list pystr) :
  forall fr : Frame World G,
  for_urls (with_keywords P x y) a b urls fr = for_urls P a b urls fr.
Proof.
  induction urls as [|u rest IH]; intros fr; cbn [for_urls]; [reflexivity|].
  unfold Exc.bind.
  change (iteration (with_keywords P x y) a b u fr) with (iteration P a b u fr).
  destruct (iteration P a b u fr) as [[[|]|e] fr1]; auto.
Qed.

Lemma sample_with_keywords (P : Params) (x y a b : pystr) (urls : list pystr)
      (s : State World G) :
  sample (with_keywords P x y) a b urls s = sample P a b urls s.
Proof.
  unfold sample, Exc.try_except. now rewrite for_urls_with_keywords.
Qed.

Lemma scrape_recipes_keywords (P : Params) (x y x' y' : pystr) (s : State World G) :
  normalise x = normalise x' -> normalise y = normalise y' ->
  scrape_recipes (with_keywords P x y) s = scrape_recipes (with_keywords P x' y') s.
Proof.
  intros Hx Hy. unfold scrape_recipes, want_a, want_b, Exc.bind, lift_net.
  cbn [with_keywords sitemap_url max_sitemap_urls timeout_s seed
       want_kooktechniek want_menugang].
  destruct (_get_recipe_urls_from_sitemap (sitemap_url P) (max_sitemap_urls P)
              (timeout_s P) (net s)) as [[[|u0 urls]|e] w]; try reflexivity.
  destruct (shuffle_urls (seed P) (u0 :: urls) _) as [[sh|e] s2]; [|reflexivity].
  now rewrite !sample_with_keywords, Hx, Hy.
Qed.

End KeywordFacts.

(** ** The seeded run does not read the module-level generator *)

Section SeedFacts.
Context {World G : Type} `{Network World} `{RandomGen G} `{Str.Lower}.

Lemma iteration_rng (P : Params) (a b u : pystr) (g : G) (fr : Frame World G) :
  iteration P a b u (with_rng g fr)
  = let (r, fr') := iteration P a b u fr in (r, with_rng g fr').
Proof.
  unfold_iteration. unfold with_rng. cbn.
  destruct (tried fr >=? max_attempts P); [reflexivity|].
  destruct (Z.of_nat (List.length (matches fr)) >=? Z.max 1 (target_matches P));
    [reflexivity|].
  cbn.
  destruct (fetch_page u (timeout_s P) (net (st fr))) as [[[t tags]|e] w] eqn:Ef;
    cbn.
  - destruct (both_in a b (Str.lower tags)); cbn;
      destruct (sleep (delay_s P) w) as [[[]|e] w2] eqn:Es; cbn; reflexivity.
  - destruct (is_request_exception e); cbn; [|reflexivity].
    destruct (sleep (delay_s P) w) as [[[]|e2] w2] eqn:Es; cbn; reflexivity.
Qed.

Lemma for_urls_rng (P : Params) (a b : pystr) (urls : list pystr) (g : G) :
  forall fr : Frame World G,
  for_urls P a b urls (with_rng g fr)
  = let (r, fr') := for_urls P a b urls fr in (r, with_rng g fr').
Proof.
  induction urls as [|u rest IH]; intros fr; cbn [for_urls]; [reflexivity|].
  unfold Exc.bind. rewrite iteration_rng.
  destruct (iteration P a b u fr) as [[[|]|e] fr1]; auto.
Qed.

Lemma sample_rng (P : Params) (a b : pystr) (urls : list pystr)
      (w : World) (g1 g2 : G) (L : list fetch_event) :
  let run1 := sample P a b urls (mkState w g1 L) in
  let run2 := sample P a b urls (mkState w g2 L) in
  fst run1 = fst run2
  /\ net (snd run1) = net (snd run2)
  /\ fetch_log (snd run1) = fetch_log (snd run2).
Proof.
  unfold sample, Exc.try_except, Exc.ret.
  change (mkFrame (mkState w g2 L) [] 0)
    with (with_rng g2 (mkFrame (mkState w g1 L) [] 0)).
  rewrite for_urls_rng.
  destruct (for_urls P a b urls (mkFrame (mkState w g1 L) [] 0)) as [[[]|e] fr];
    cbn; auto.
  destruct (is_keyboard_interrupt e); cbn; auto.
  unfold call_print, with_rng. cbn.
  destruct (print_line interrupt_notice (net (st fr))) as [[[]|e2] w2];
    cbn; auto.
Qed.

End SeedFacts.

(** * The claims *)

Section Claims.
Context {World G : Type} `{Network World} `{RandomGen G} `{Str.Lower}.

(** C1, as amended.  In a sampling run, a recipe is in the result exactly
    when its page was fetched successfully and both keywords, trimmed of
    the white space around them and then lower-cased, occur as substrings
    of the lower-cased haystack the page fetcher returned.  A page whose
    haystack holds only one of the two never puts a recipe in the
    result. *)
Theorem recorded_iff_both_keywords (P : Params) (s s' : State World G)
        (rs : list Recipe) :
  scrape_recipes P s = (Ok rs, s') ->
  exists new,
    fetch_log s' = fetch_log s ++ new
    /\ forall t u,
         In (mkRecipe t u) rs
         <-> exists tags_text,
               In (u, Ok (t, tags_text)) new
               /\ occurs_in (Str.lower (Str.strip (want_kooktechniek P)))
                            (Str.lower tags_text)
               /\ occurs_in (Str.lower (Str.strip (want_menugang P)))
                            (Str.lower tags_text).
Proof.
  intros E. apply scrape_recipes_matches in E as (new & Hl & Hm).
  exists new. split; [exact Hl|]. intros t u. apply Hm.
Qed.

(** C2.  With a budget of [max_attempts] page requests (a count, so not
    negative) and [N] candidates from the sitemap reader, a sampling run
    makes at most [min N max_attempts] page requests; a request that
    fails is an entry of the history like any other. *)
Theorem attempts_within_budget (P : Params) (s s' : State World G)
        (r : result (list Recipe)) (urls : list pystr) :
  0 <= max_attempts P ->
  fst (_get_recipe_urls_from_sitemap (sitemap_url P) (max_sitemap_urls P)
         (timeout_s P) (net s)) = Ok urls ->
  scrape_recipes P s = (r, s') ->
  exists new,
    fetch_log s' = fetch_log s ++ new
    /\ Z.of_nat (List.length new)
       <= Z.min (Z.of_nat (List.length urls)) (max_attempts P).
Proof.
  intros HB Hr E. apply scrape_recipes_inv in E
    as [(e & E & _) | [(_ & _ & ->) | (urls' & sh & s2 & Hr' & _ & Esh & E)]].
  - congruence.
  - exists []. cbn. rewrite app_nil_r. split; [reflexivity | lia].
  - rewrite Hr in Hr'. injection Hr' as <-.
    destruct (shuffle_urls_ok (seed P) urls
                (mkState (snd (_get_recipe_urls_from_sitemap (sitemap_url P)
                                 (max_sitemap_urls P) (timeout_s P) (net s)))
                         (global_rng s) (fetch_log s)))
      as (sh' & s2' & Esh' & Hlen & _ & Hlog & _).
    rewrite Esh in Esh'. injection Esh' as <- <-. cbn in Hlog.
    apply sample_spec in E as (new & Hl & Hn & Hb & _).
    exists new. split; [congruence|]. specialize (Hb HB). lia.
Qed.

(** C3.  Two runs with the same seed, the same parameters and the same
    world (so the same sitemap and the same page behind every URL), started
    with the module-level generator in any two states, shuffle every
    candidate list into the same order, return the same recipes in the
    same order, and make the same page requests in the same order. *)
Theorem seeded_runs_agree (P : Params) (n : Z) (w : World) (g1 g2 : G)
        (L : list fetch_event) :
  seed P = Some n ->
  let run1 := scrape_recipes P (mkState w g1 L) in
  let run2 := scrape_recipes P (mkState w g2 L) in
  (forall urls, fst (shuffle_urls (seed P) urls (mkState w g1 L))
                = fst (shuffle_urls (seed P) urls (mkState w g2 L)))
  /\ fst run1 = fst run2
  /\ net (snd run1) = net (snd run2)
  /\ fetch_log (snd run1) = fetch_log (snd run2).
Proof.
  intros Hs. cbn zeta. split.
  { intros urls. rewrite Hs. reflexivity. }
  unfold scrape_recipes, lift_net, Exc.bind, Exc.ret. cbn [net global_rng fetch_log].
  destruct (_get_recipe_urls_from_sitemap (sitemap_url P) (max_sitemap_urls P)
              (timeout_s P) w) as [[[|u0 urls]|e] w1]; cbn; auto.
  rewrite Hs. unfold shuffle_urls.
  apply sample_rng.
Qed.

(** C4.  The picker fails with the "no candidates" error on an empty
    sequence, and on a non-empty one it returns an element of the
    sequence. *)
Theorem pick_random_recipe_spec (s : State World G) :
  fst (pick_random_recipe [] s) = Raise no_candidates
  /\ forall r rs, exists x,
       fst (pick_random_recipe (r :: rs) s) = Ok x /\ In x (r :: rs).
Proof.
  split; [reflexivity|]. intros r rs. unfold pick_random_recipe, choice.
  pose proof (@randbelow_lt G _ (List.length (r :: rs)) (global_rng s)
                ltac:(cbn; lia)) as Hlt.
  destruct (randbelow (List.length (r :: rs)) (global_rng s)) as [j g].
  cbn [fst] in Hlt.
  destruct (nth_error (r :: rs) j) as [x|] eqn:E.
  - exists x. split; [reflexivity | now apply nth_error_In with j].
  - apply nth_error_None in E. lia.
Qed.

(** C5, as amended.  A sampling run that returns, returns at most
    [max 1 target_matches] recipes. *)
Theorem match_count_bounded (P : Params) (s s' : State World G)
        (rs : list Recipe) :
  scrape_recipes P s = (Ok rs, s') ->
  Z.of_nat (List.length rs) <= Z.max 1 (target_matches P).
Proof.
  intros E. apply scrape_recipes_inv in E
    as [(e & _ & E & _) | [(_ & E & ->) | (urls & sh & s2 & _ & _ & _ & E)]].
  - discriminate.
  - injection E as ->. cbn. lia.
  - apply sample_spec in E as (new & _ & _ & _ & _ & Hrs).
    apply (Hrs rs eq_refl).
Qed.

(** C7.  When the sitemap reader returns no candidate, the run returns the
    empty list at once: the request history is as the reader left it, so
    no page was requested, and nothing was shuffled or slept. *)
Theorem empty_sitemap_no_fetch (P : Params) (s : State World G) :
  let reader := _get_recipe_urls_from_sitemap
                  (sitemap_url P) (max_sitemap_urls P) (timeout_s P) (net s) in
  fst reader = Ok [] ->
  scrape_recipes P s
  = (Ok [], mkState (snd reader) (global_rng s) (fetch_log s)).
Proof.
  cbn zeta. unfold scrape_recipes, lift_net, Exc.bind, Exc.ret.
  destruct (_get_recipe_urls_from_sitemap (sitemap_url P) (max_sitemap_urls P)
              (timeout_s P) (net s)) as [r w]; cbn [fst snd].
  now intros ->.
Qed.

(** X19.  When the loop over the shuffled candidates is left by a
    [KeyboardInterrupt], whichever blocking call it came from, and the
    notice of the handler is printed, the run does not raise: it returns
    the values of the match set as it stood at that moment, which are the
    recipes of the pages fetched until then with both keywords in the
    haystack. *)
Theorem interrupt_returns_partial (P : Params) (s s2 : State World G)
        (urls sh : list pystr) (fr : Frame World G) :
  let reader := _get_recipe_urls_from_sitemap
                  (sitemap_url P) (max_sitemap_urls P) (timeout_s P) (net s) in
  fst reader = Ok urls -> urls <> [] ->
  shuffle_urls (seed P) urls
    (mkState (snd reader) (global_rng s) (fetch_log s)) = (Ok sh, s2) ->
  for_urls P (Str.lower (Str.strip (want_kooktechniek P)))
           (Str.lower (Str.strip (want_menugang P))) sh (mkFrame s2 [] 0)
  = (Raise KeyboardInterrupt, fr) ->
  fst (print_line interrupt_notice (net (st fr))) = Ok tt ->
  fst (scrape_recipes P s) = Ok (dict_values (matches fr))
  /\ fetch_log (snd (scrape_recipes P s)) = fetch_log (st fr)
  /\ exists new,
       fetch_log (st fr) = fetch_log s ++ new
       /\ forall t u,
            In (mkRecipe t u) (dict_values (matches fr))
            <-> exists tags_text,
                  In (u, Ok (t, tags_text)) new
                  /\ occurs_in (Str.lower (Str.strip (want_kooktechniek P)))
                               (Str.lower tags_text)
                  /\ occurs_in (Str.lower (Str.strip (want_menugang P)))
                               (Str.lower tags_text).
Proof.
  cbn zeta. intros Hr Hne Esh Eloop Hp.
  assert (Erun : scrape_recipes P s
                 = (Ok (dict_values (matches fr)),
                    mkState (snd (print_line interrupt_notice (net (st fr))))
                            (global_rng (st fr)) (fetch_log (st fr)))).
  { unfold scrape_recipes, lift_net. unfold Exc.bind at 1.
    destruct (_get_recipe_urls_from_sitemap (sitemap_url P) (max_sitemap_urls P)
                (timeout_s P) (net s)) as [r w]. cbn [fst snd] in *. subst r.
    destruct urls as [|u0 urls]; [congruence|].
    unfold Exc.bind. rewrite Esh. unfold sample, Exc.try_except.
    unfold want_a, want_b, normalise. rewrite Eloop. cbn [is_keyboard_interrupt].
    unfold call_print.
    destruct (print_line interrupt_notice (net (st fr))) as [rp wp].
    cbn [fst snd] in *. subst rp. reflexivity. }
  rewrite Erun. cbn [fst snd fetch_log].
  split; [reflexivity|]. split; [reflexivity|].
  destruct (shuffle_urls_ok (seed P) urls
              (mkState (snd (_get_recipe_urls_from_sitemap (sitemap_url P)
                               (max_sitemap_urls P) (timeout_s P) (net s)))
                       (global_rng s) (fetch_log s)))
    as (sh' & s2' & Esh' & _ & _ & Hlog & _).
  rewrite Esh in Esh'. injection Esh' as <- <-. cbn in Hlog.
  apply for_urls_spec in Eloop as (new & Hl & _ & _ & _ & _ & Hkd & Hks & _).
  cbn in Hl, Hkd, Hks. exists new. split; [congruence|].
  intros t u. rewrite keyed_values by (apply Hkd; constructor).
  rewrite Hks. unfold dict_keys. cbn [map]. unfold matched. cbn [fst snd].
  tauto.
Qed.

(** C9.  White space around the keywords changes nothing: the run with
    two keywords, each between two strings of white space, is the run
    with the keywords themselves, and that is the run with their trimmed
    forms: same result and same requests, whatever the pages hold. *)
Theorem keywords_are_trimmed (P : Params) (a b la ra lb rb : pystr)
        (s : State World G) :
  Str.all_space la = true -> Str.all_space ra = true ->
  Str.all_space lb = true -> Str.all_space rb = true ->
  scrape_recipes (with_keywords P (la ++ a ++ ra) (lb ++ b ++ rb)) s
  = scrape_recipes (with_keywords P a b) s
  /\ scrape_recipes (with_keywords P a b) s
     = scrape_recipes (with_keywords P (Str.strip a) (Str.strip b)) s.
Proof.
  intros Hla Hra Hlb Hrb. split.
  - apply scrape_recipes_keywords; unfold normalise;
      now rewrite strip_surrounded.
  - apply scrape_recipes_keywords; unfold normalise;
      now rewrite strip_idem.
Qed.

(** C10.  When both keywords are empty or made of white space only, every
    page fetched successfully during the run has its recipe in the
    result. *)
Theorem empty_keywords_match_all (P : Params) (s s' : State World G)
        (rs : list Recipe) :
  Str.all_space (want_kooktechniek P) = true ->
  Str.all_space (want_menugang P) = true ->
  scrape_recipes P s = (Ok rs, s') ->
  exists new,
    fetch_log s' = fetch_log s ++ new
    /\ forall u t tags_text,
         In (u, Ok (t, tags_text)) new -> In (mkRecipe t u) rs.
Proof.
  intros Ha Hb E. apply scrape_recipes_matches in E as (new & Hl & Hm).
  exists new. split; [exact Hl|]. intros u t tags Hin. apply Hm.
  exists tags. unfold want_a, want_b, normalise.
  rewrite (strip_all_space _ Ha), (strip_all_space _ Hb), Str.lower_nil.
  repeat split; auto; apply str_in_spec, str_in_empty.
Qed.

End Claims.

(** * The model at work *)

Section AtWork.
Local Existing Instance ascii_lower.

Example strip_lower_example :
  normalise ([0xa0; 0x20]%N ++ py "Koken" ++ [0x3000; 0xa]%N) = py "koken".
Proof. reflexivity. Qed.

(** Seed 2 leaves the three candidates in sitemap order; the first one
    matches, the target of one is reached, and one request was made. *)
Example default_run :
  scrape_recipes (params_demo 60 1 (Some 2)) (start world_demo 7)
  = (Ok [mkRecipe (py "Soep") url_a],
     mkState world_demo 7 [(url_a, Ok (py "Soep", py "Koken | Hoofdgerecht"))]).
Proof. vm_compute. reflexivity. Qed.

(** Requests that fail use up the budget like the others: with no page
    reachable and a budget of two, two requests are made and the third
    candidate is left alone. *)
Example failed_fetches_use_budget :
  map fst (fetch_log (snd (scrape_recipes (params_demo 2 3 (Some 2))
                             (start (mkScript (sitemap_of [url_a; url_b; url_c])
                                              [] [] false) 7))))
  = [url_a; url_b].
Proof. vm_compute. reflexivity. Qed.

(** Without a seed the order depends on the module-level generator. *)
Example unseeded_runs_differ :
  map fst (fetch_log (snd (scrape_recipes (params_demo 60 3 None) (start world_demo 7))))
  = [url_c; url_a; url_b]
  /\ map fst (fetch_log (snd (scrape_recipes (params_demo 60 3 None) (start world_demo 8))))
     = [url_a; url_b; url_c].
Proof. split; vm_compute; reflexivity. Qed.

(** On the fallback path the URLs read from the stream are kept, and
    those of the fallback parse come after them. *)
Example fallback_appends :
  fst (_get_recipe_urls_from_sitemap (sitemap_url default_params) 8000 14000
         world_broken_stream)
  = Ok [url_a; url_a; url_b; url_c].
Proof. vm_compute. reflexivity. Qed.

(** C1, as stated, fails: the keyword [" koken"] is trimmed before it is
    looked for, so the page is recorded although the lower-cased keyword,
    with its space, does not occur in the lower-cased haystack. *)
Lemma untrimmed_keyword_is_matched :
  let P := with_keywords (params_demo 60 1 (Some 2))
                         (py " koken") (py "hoofdgerecht") in
  scrape_recipes P (start world_demo 7)
  = (Ok [mkRecipe (py "Soep") url_a],
     mkState world_demo 7 [(url_a, Ok (py "Soep", py "Koken | Hoofdgerecht"))])
  /\ ~ occurs_in (Str.lower (want_kooktechniek P))
                 (Str.lower (py "Koken | Hoofdgerecht")).
Proof.
  cbn zeta. split; [vm_compute; reflexivity|].
  intros Ho. apply str_in_spec in Ho. vm_compute in Ho. discriminate.
Qed.

Lemma recorded_iff_both_keywords_witness :
  let P := with_keywords (params_demo 60 3 (Some 2))
                         (py " koken") (py "hoofdgerecht") in
  let s := start world_demo 7 in
  scrape_recipes P s = (Ok [mkRecipe (py "Soep") url_a], snd (scrape_recipes P s))
  /\ exists new,
       fetch_log (snd (scrape_recipes P s)) = fetch_log s ++ new
       /\ forall t u,
            In (mkRecipe t u) [mkRecipe (py "Soep") url_a]
            <-> exists tags_text,
                  In (u, Ok (t, tags_text)) new
                  /\ occurs_in (Str.lower (Str.strip (want_kooktechniek P)))
                               (Str.lower tags_text)
                  /\ occurs_in (Str.lower (Str.strip (want_menugang P)))
                               (Str.lower tags_text).
Proof.
  cbn zeta.
  assert (E : scrape_recipes
                (with_keywords (params_demo 60 3 (Some 2))
                               (py " koken") (py "hoofdgerecht"))
                (start world_demo 7)
              = (Ok [mkRecipe (py "Soep") url_a],
                 snd (scrape_recipes
                        (with_keywords (params_demo 60 3 (Some 2))
                                       (py " koken") (py "hoofdgerecht"))
                        (start world_demo 7))))
    by (vm_compute; reflexivity).
  split; [exact E | exact (recorded_iff_both_keywords _ _ E)].
Defined.

Lemma attempts_within_budget_witness :
  let P := params_demo 2 3 (Some 2) in
  let s := start world_demo 7 in
  exists new,
    fetch_log (snd (scrape_recipes P s)) = fetch_log s ++ new
    /\ Z.of_nat (List.length new) <= Z.min 3 2.
Proof.
  cbn zeta.
  apply (@attempts_within_budget Script Z _ _ _ (params_demo 2 3 (Some 2))
           (start world_demo 7)
           (snd (scrape_recipes (params_demo 2 3 (Some 2)) (start world_demo 7)))
           (fst (scrape_recipes (params_demo 2 3 (Some 2)) (start world_demo 7)))
           [url_a; url_b; url_c]).
  - cbn. lia.
  - vm_compute. reflexivity.
  - vm_compute. reflexivity.
Defined.

Lemma seeded_runs_agree_witness :
  fst (scrape_recipes (params_demo 60 3 (Some 5)) (start world_demo 7))
  = fst (scrape_recipes (params_demo 60 3 (Some 5)) (start world_demo 8)).
Proof.
  exact (proj1 (proj2 (@seeded_runs_agree Script Z _ _ _ (params_demo 60 3 (Some 5))
                         5 world_demo 7 8 [] eq_refl))).
Defined.

(** C5, as stated, fails: with a target of zero the loop still runs until
    one match is found, and the run returns it. *)
Lemma target_zero_returns_one :
  exists rs s',
    scrape_recipes (params_demo 60 0 (Some 2)) (start world_demo 7) = (Ok rs, s')
    /\ ~ Z.of_nat (List.length rs) <= target_matches (params_demo 60 0 (Some 2)).
Proof.
  exists [mkRecipe (py "Soep") url_a],
         (snd (scrape_recipes (params_demo 60 0 (Some 2)) (start world_demo 7))).
  split; [vm_compute; reflexivity | cbn; lia].
Qed.

Lemma match_count_bounded_witness :
  let P := params_demo 60 0 (Some 2) in
  Z.of_nat (List.length [mkRecipe (py "Soep") url_a]) <= Z.max 1 (target_matches P).
Proof.
  cbn zeta.
  apply (@match_count_bounded Script Z _ _ _ (params_demo 60 0 (Some 2))
           (start world_demo 7)
           (snd (scrape_recipes (params_demo 60 0 (Some 2)) (start world_demo 7)))).
  vm_compute. reflexivity.
Defined.

(** C6 at a cap of zero: the cap is tested only after a URL has been
    appended, so the reader returns one URL. *)
Theorem reader_exceeds_zero_cap :
  fst (_get_recipe_urls_from_sitemap (sitemap_url default_params) 0 14000
         world_demo)
  = Ok [url_a]
  /\ ~ Z.of_nat (List.length [url_a]) <= 0.
Proof. split; [vm_compute; reflexivity | cbn; lia]. Qed.

Lemma empty_sitemap_no_fetch_witness :
  scrape_recipes default_params (start world_empty 7)
  = (Ok [], start world_empty 7).
Proof.
  exact (@empty_sitemap_no_fetch Script Z _ _ _ default_params
           (start world_empty 7) eq_refl).
Defined.

(** C8 on a standard output that encodes ASCII only.  Ctrl+C comes during
    the second sleep, when the first candidate has been recorded; the
    handler prints its notice, which begins with U+26D4, the print raises
    [UnicodeEncodeError], and the run raises it instead of returning the
    recipe found. *)
Theorem interrupt_notice_can_raise :
  let P := params_demo 60 3 (Some 2) in
  let s := start world_interrupted_ascii 7 in
  exists fr,
    for_urls P (Str.lower (Str.strip (want_kooktechniek P)))
             (Str.lower (Str.strip (want_menugang P)))
             [url_a; url_b; url_c] (mkFrame s [] 0)
    = (Raise KeyboardInterrupt, fr)
    /\ dict_values (matches fr) = [mkRecipe (py "Soep") url_a]
    /\ fst (scrape_recipes P s) = Raise UnicodeEncodeError.
Proof.
  cbn zeta. eexists. split; [vm_compute; reflexivity|].
  split; vm_compute; reflexivity.
Qed.

Lemma interrupt_returns_partial_witness :
  fst (scrape_recipes (params_demo 60 3 (Some 2)) (start world_interrupted 7))
  = Ok [mkRecipe (py "Soep") url_a]
  /\ map fst (fetch_log (snd (scrape_recipes (params_demo 60 3 (Some 2))
                                (start world_interrupted 7))))
     = [url_a; url_b].
Proof.
  pose (P := params_demo 60 3 (Some 2)).
  pose (s := start world_interrupted 7).
  pose (fr := snd (for_urls P (Str.lower (Str.strip (want_kooktechniek P)))
                     (Str.lower (Str.strip (want_menugang P)))
                     [url_a; url_b; url_c] (mkFrame s [] 0))).
  destruct (@interrupt_returns_partial Script Z _ _ _ P s s
              [url_a; url_b; url_c] [url_a; url_b; url_c] fr) as (E1 & E2 & _).
  - vm_compute. reflexivity.
  - discriminate.
  - vm_compute. reflexivity.
  - vm_compute. reflexivity.
  - vm_compute. reflexivity.
  - fold P s. rewrite E1, E2. split; vm_compute; reflexivity.
Defined.

Lemma keywords_are_trimmed_witness :
  let P := params_demo 60 3 (Some 2) in
  scrape_recipes
    (with_keywords P ([0xa0; 0x20]%N ++ py "koken" ++ [0x9]%N)
                   ([0x3000]%N ++ py "hoofdgerecht" ++ [0xa; 0x85]%N))
    (start world_demo 7)
  = (Ok [mkRecipe (py "Soep") url_a],
     mkState world_demo 7
             [(url_a, Ok (py "Soep", py "Koken | Hoofdgerecht"));
              (url_b, Ok (py "Taart", py "bakken | nagerecht"));
              (url_c, Raise RequestException)]).
Proof.
  cbn zeta.
  rewrite (proj1 (@keywords_are_trimmed Script Z _ _ _ (params_demo 60 3 (Some 2))
                    (py "koken") (py "hoofdgerecht")
                    [0xa0; 0x20]%N [0x9]%N [0x3000]%N [0xa; 0x85]%N
                    (start world_demo 7)
                    eq_refl eq_refl eq_refl eq_refl)).
  vm_compute. reflexivity.
Defined.

Lemma empty_keywords_match_all_witness :
  let P := with_keywords (params_demo 60 3 (Some 2)) [0xa0; 0x20]%N [] in
  let s := start world_demo 7 in
  exists new,
    fetch_log (snd (scrape_recipes P s)) = fetch_log s ++ new
    /\ forall u t tags_text,
         In (u, Ok (t, tags_text)) new
         -> In (mkRecipe t u) [mkRecipe (py "Soep") url_a; mkRecipe (py "Taart") url_b].
Proof.
  cbn zeta.
  apply (@empty_keywords_match_all Script Z _ _ _
           (with_keywords (params_demo 60 3 (Some 2)) [0xa0; 0x20]%N [])
           (start world_demo 7)).
  - reflexivity.
  - reflexivity.
  - vm_compute. reflexivity.
Defined.

End AtWork.

(** * Further properties of the code *)

(** ** The reader, without its loop *)

Lemma scan_locs_step (max_urls : Z) (el : element) (rest : list element)
      (urls : list pystr) :
  scan_locs max_urls (el :: rest) urls
  = match recipe_loc el with
    | Some u =>
        if Z.of_nat (List.length (urls ++ [u])) >=? max_urls
        then (urls ++ [u], Some rest)
        else scan_locs max_urls rest (urls ++ [u])
    | None => scan_locs max_urls rest urls
    end.
Proof.
  cbn [scan_locs]. unfold recipe_loc. destruct (text el) as [t|]; [|reflexivity].
  destruct (Str.endswith (tag el) (py "loc") && Str.truthy t); [|reflexivity].
  cbn [andb]. destruct (Str.str_in recipe_marker (Str.strip t)); reflexivity.
Qed.

(** The loop appends the recipe URLs of the elements, in order, until the
    list is [max_urls] long, and one in any case. *)
Lemma scan_locs_take (max_urls : Z) (elems : list element) :
  forall urls,
  let room := Z.to_nat (Z.max 1 (max_urls - Z.of_nat (List.length urls))) in
  fst (scan_locs max_urls elems urls) = urls ++ firstn room (recipe_locs elems)
  /\ (snd (scan_locs max_urls elems urls) = None
      <-> (List.length (recipe_locs elems) < room)%nat).
Proof.
  induction elems as [|el rest IH]; intros urls room.
  - cbn. rewrite firstn_nil, app_nil_r. split; [reflexivity|].
    split; [intros _; subst room; lia | reflexivity].
  - rewrite scan_locs_step. cbn [recipe_locs].
    destruct (recipe_loc el) as [u|]; [|apply IH].
    destruct (Z.of_nat (List.length (urls ++ [u])) >=? max_urls) eqn:E.
    + rewrite Z.geb_le, length_app in E. cbn in E.
      assert (Hr : room = 1%nat) by (subst room; lia).
      rewrite Hr. cbn. split; [reflexivity|].
      split; [discriminate | lia].
    + rewrite Z.geb_leb, Z.leb_gt, length_app in E. cbn [List.length] in E.
      specialize (IH (urls ++ [u])). cbn zeta in IH.
      rewrite length_app in IH. cbn [List.length] in IH.
      assert (Hr : room = S (Z.to_nat (Z.max 1 (max_urls
                     - Z.of_nat (List.length urls + 1)))))
        by (subst room; lia).
      rewrite Hr. cbn [firstn List.length]. destruct IH as [IH1 IH2].
      rewrite IH1, IH2, <- app_assoc. cbn. split; [reflexivity | lia].
Qed.

Section ReaderSpec.
Context {World : Type} `{Network World}.

(** The reader against [sitemap_urls]. *)
Lemma reader_sitemap_urls (sm : pystr) (max_urls : Z) (t : seconds)
        (w w' : World) (resp : sitemap_response) :
  1 <= max_urls ->
  session_get_sitemap sm t w = (Ok resp, w') ->
  _get_recipe_urls_from_sitemap sm max_urls t w
  = (sitemap_urls max_urls resp, w').
Proof.
  intros Hm Hg. unfold _get_recipe_urls_from_sitemap, Exc.bind, Exc.ret.
  rewrite Hg. unfold sitemap_urls.
  destruct (scan_locs_take max_urls (stream_elems resp) []) as [H1 H2].
  cbn [List.length app] in H1, H2.
  replace (Z.to_nat (Z.max 1 (max_urls - Z.of_nat 0))) with (Z.to_nat max_urls)
    in H1, H2 by lia.
  destruct (scan_locs max_urls (stream_elems resp) []) as [urls [rest|]];
    cbn [fst snd] in H1, H2.
  - assert (Hge : (Z.to_nat max_urls <= List.length (recipe_locs (stream_elems resp)))%nat).
    { destruct (le_lt_dec (Z.to_nat max_urls)
                  (List.length (recipe_locs (stream_elems resp)))) as [Hl|Hl];
        [exact Hl|]. apply H2 in Hl. discriminate. }
    apply Nat.leb_le in Hge. rewrite Hge. now rewrite H1.
  - assert (Hlt : (List.length (recipe_locs (stream_elems resp)) < Z.to_nat max_urls)%nat)
      by now apply H2.
    assert (Hnb : (Z.to_nat max_urls <=? List.length (recipe_locs (stream_elems resp)))%nat
                  = false) by (apply Nat.leb_gt; exact Hlt).
    rewrite Hnb. rewrite firstn_all2 in H1 by lia. subst urls.
    destruct (stream_end resp) as [e0|]; [|reflexivity].
    unfold Exc.raise. destruct (is_parse_error e0); [|reflexivity].
    destruct (document resp) as [root|e]; [|reflexivity].
    destruct (scan_locs_take max_urls root (recipe_locs (stream_elems resp)))
      as [H3 _].
    rewrite H3. do 4 f_equal. lia.
Qed.

(** X1.  With a cap of at least one, the reader returns what
    [sitemap_urls] says: the first [max_urls] recipe URLs of the stream, in
    the order of the stream.  When the stream raises [ParseError] before
    that many were read, the URLs read so far are kept and the recipe URLs
    of what the fallback parse yields are appended, up to the cap; an
    exception of the fallback parse is raised.  When the stream raises
    another exception before the cap is reached, that exception is
    raised. *)
Theorem reader_reads_sitemap_urls (sm : pystr) (max_urls : Z) (t : seconds)
        (w w' : World) (resp : sitemap_response) :
  1 <= max_urls ->
  session_get_sitemap sm t w = (Ok resp, w') ->
  _get_recipe_urls_from_sitemap sm max_urls t w
  = (sitemap_urls max_urls resp, w').
Proof. apply reader_sitemap_urls. Qed.

End ReaderSpec.

(** ** The shuffle loses and repeats nothing *)

Lemma list_set_perm {A} (a b : A) (l : list A) :
  forall j, nth_error l j = Some b ->
  Permutation (b :: list_set j a l) (a :: l).
Proof.
  induction l as [|c l IH]; intros [|j] Hj; cbn in *; try discriminate.
  - injection Hj as ->. apply perm_swap.
  - eapply perm_trans; [apply perm_swap|].
    eapply perm_trans; [apply perm_skip, IH, Hj|]. apply perm_swap.
Qed.

Lemma list_set_twice_perm {A} (x : list A) :
  forall i j xi xj,
  nth_error x i = Some xi -> nth_error x j = Some xj ->
  Permutation (list_set j xi (list_set i xj x)) x.
Proof.
  induction x as [|a l IH]; intros [|i] [|j] xi xj Hi Hj; cbn in *;
    try discriminate.
  - injection Hi as ->. reflexivity.
  - injection Hi as ->. now apply list_set_perm.
  - injection Hj as ->. now apply list_set_perm.
  - apply perm_skip. now apply IH.
Qed.

Lemma swap_perm {A} (i j : nat) (x : list A) : Permutation (swap i j x) x.
Proof.
  unfold swap. destruct (nth_error x j) as [xj|] eqn:Ej; [|reflexivity].
  destruct (nth_error x i) as [xi|] eqn:Ei; [|reflexivity].
  now apply list_set_twice_perm.
Qed.

Lemma shuffle_from_perm {G} `{RandomGen G} {A} (i : nat) :
  forall (x : list A) (g : G), Permutation (fst (shuffle_from i x g)) x.
Proof.
  induction i as [|i IH]; intros x g; cbn [shuffle_from]; [reflexivity|].
  destruct (randbelow (S (S i)) g) as [j g'].
  eapply perm_trans; [apply IH | apply swap_perm].
Qed.

Lemma shuffle_perm {G} `{RandomGen G} {A} (x : list A) (g : G) :
  Permutation (fst (shuffle x g)) x.
Proof. apply shuffle_from_perm. Qed.

Section OrderFacts.
Context {World G : Type} `{Network World} `{RandomGen G} `{Str.Lower}.

Lemma shuffle_urls_perm (sd : option Z) (urls sh : list pystr)
      (s s2 : State World G) :
  shuffle_urls sd urls s = (Ok sh, s2) -> Permutation urls sh.
Proof.
  unfold shuffle_urls. destruct sd as [n|].
  - intros E. injection E as <- _. symmetry. apply shuffle_perm.
  - pose proof (shuffle_perm urls (global_rng s)) as Hp.
    destruct (shuffle urls (global_rng s)) as [sh' g]. cbn in Hp.
    intros E. injection E as <- _. now symmetry.
Qed.

(** A pass through the loop body either breaks and leaves the frame
    alone, or asks the page fetcher for this candidate, once. *)
Lemma iteration_request (P : Params) (a b u : pystr) (fr fr' : Frame World G)
      (r : result ctl) :
  iteration P a b u fr = (r, fr') ->
  (r = Ok Stop /\ fr' = fr)
  \/ (r <> Ok Stop
      /\ fetch_log (st fr')
         = fetch_log (st fr)
           ++ [(u, fst (fetch_page u (timeout_s P) (net (st fr))))]).
Proof.
  unfold_iteration.
  destruct (tried fr >=? max_attempts P).
  { intros E. injection E as <- <-. now left. }
  destruct (Z.of_nat (List.length (matches fr)) >=? Z.max 1 (target_matches P)).
  { intros E. injection E as <- <-. now left. }
  intros E. right. cbn in E.
  destruct (fetch_page u (timeout_s P) (net (st fr))) as [[[t tags]|e] w];
    cbn in E.
  - destruct (both_in a b (Str.lower tags)); cbn in E;
      destruct (sleep (delay_s P) w) as [[[]|e] w2]; cbn in E;
      injection E as <- <-; cbn; (split; [discriminate | reflexivity]).
  - destruct (is_request_exception e); cbn in E.
    + destruct (sleep (delay_s P) w) as [[[]|e2] w2]; cbn in E;
        injection E as <- <-; cbn; (split; [discriminate | reflexivity]).
    + injection E as <- <-; cbn. split; [discriminate | reflexivity].
Qed.

(** The requests of the loop go to the candidates in the order of the
    list, one each, up to where the loop stopped; and each outcome in the
    history is what the page fetcher answered. *)
Lemma for_urls_requests (P : Params) (a b : pystr) (urls : list pystr) :
  forall (fr fr' : Frame World G) (r : result unit),
  for_urls P a b urls fr = (r, fr') ->
  exists new rest,
    fetch_log (st fr') = fetch_log (st fr) ++ new
    /\ urls = map fst new ++ rest
    /\ Forall (fun ev => exists w,
                 snd ev = fst (fetch_page (fst ev) (timeout_s P) w)) new.
Proof.
  induction urls as [|u rest IH]; intros fr fr' r; cbn [for_urls].
  - unfold Exc.ret. intros E. injection E as <- <-. exists [], [].
    rewrite app_nil_r. auto.
  - unfold Exc.bind at 1.
    destruct (iteration P a b u fr) as [c fr1] eqn:Ei.
    apply iteration_request in Ei as [[-> ->] | [Hns Hlog]].
    + unfold Exc.ret. intros E. injection E as <- <-. exists [], (u :: rest).
      rewrite app_nil_r. auto.
    + assert (Hone : Forall (fun ev => exists w,
                 snd ev = fst (fetch_page (fst ev) (timeout_s P) w))
                [(u, fst (fetch_page u (timeout_s P) (net (st fr))))]).
      { constructor; [|constructor]. now exists (net (st fr)). }
      destruct c as [[|]|e].
      * intros E. apply IH in E as (new & rest' & Hl & Hu & Hf).
        exists ((u, fst (fetch_page u (timeout_s P) (net (st fr)))) :: new), rest'.
        split; [rewrite Hl, Hlog, <- app_assoc; reflexivity|].
        split; [cbn; now rewrite <- Hu|].
        constructor; [now exists (net (st fr)) | exact Hf].
      * congruence.
      * intros E. injection E as <- <-.
        exists [(u, fst (fetch_page u (timeout_s P) (net (st fr))))], rest.
        auto.
Qed.

Lemma sample_inv (P : Params) (a b : pystr) (urls : list pystr)
      (s s' : State World G) (r : result (list Recipe)) :
  sample P a b urls s = (r, s') ->
  exists r0 fr,
    for_urls P a b urls (mkFrame s [] 0) = (r0, fr)
    /\ fetch_log s' = fetch_log (st fr)
    /\ (forall rs, r = Ok rs -> rs = dict_values (matches fr))
    /\ (r0 = Ok tt -> r = Ok (dict_values (matches fr))).
Proof.
  unfold sample, Exc.try_except, Exc.ret.
  destruct (for_urls P a b urls (mkFrame s [] 0)) as [r0 fr] eqn:E.
  intros Hs. exists r0, fr. split; [reflexivity|].
  destruct r0 as [[]|e].
  - injection Hs as <- <-. repeat split; intros; congruence.
  - destruct (is_keyboard_interrupt e) eqn:Ek.
    + unfold call_print in Hs.
      destruct (print_line interrupt_notice (net (st fr))) as [[[]|e2] w];
        injection Hs as <- <-; cbn [fetch_log matches];
        repeat split; intros; congruence.
    + injection Hs as <- <-. repeat split; intros; congruence.
Qed.

Lemma reader_marker (sm : pystr) (max_urls : Z) (t : seconds) (w w' : World)
      (urls : list pystr) :
  _get_recipe_urls_from_sitemap sm max_urls t w = (Ok urls, w') ->
  Forall has_marker urls.
Proof.
  unfold _get_recipe_urls_from_sitemap, Exc.bind, Exc.ret.
  destruct (session_get_sitemap sm t w) as [[resp|e] w1]; [|discriminate].
  pose proof (@scan_locs_marker max_urls (stream_elems resp) [] (Forall_nil _)) as Hk.
  destruct (scan_locs max_urls (stream_elems resp) []) as [us [rest|]];
    cbn [fst] in Hk.
  - intros E. injection E as <- <-. exact Hk.
  - destruct (stream_end resp) as [e0|].
    + unfold Exc.raise. destruct (is_parse_error e0); [|discriminate].
      destruct (document resp) as [root|e]; [|discriminate].
      intros E. injection E as <- <-. now apply scan_locs_marker.
    + intros E. injection E as <- <-. exact Hk.
Qed.

(** The requests of a run, against the candidates of the reader. *)
Lemma scrape_recipes_requests (P : Params) (s s' : State World G)
      (r : result (list Recipe)) (urls : list pystr) :
  fst (_get_recipe_urls_from_sitemap (sitemap_url P) (max_sitemap_urls P)
         (timeout_s P) (net s)) = Ok urls ->
  scrape_recipes P s = (r, s') ->
  exists new sh rest,
    fetch_log s' = fetch_log s ++ new
    /\ Permutation urls sh
    /\ sh = map fst new ++ rest
    /\ (forall n, seed P = Some n -> sh = fst (shuffle urls (rng_seed n)))
    /\ Forall (fun ev => exists w,
                 snd ev = fst (fetch_page (fst ev) (timeout_s P) w)) new.
Proof.
  intros Hr E. apply scrape_recipes_inv in E
    as [(e & E & _) | [(Hr' & _ & ->) | (urls' & sh & s2 & Hr' & _ & Esh & E)]].
  - congruence.
  - rewrite Hr in Hr'. injection Hr' as ->.
    exists [], [], []. cbn. rewrite app_nil_r.
    split; [reflexivity|]. split; [constructor|]. split; [reflexivity|].
    split; [|constructor]. intros n _. reflexivity.
  - rewrite Hr in Hr'. injection Hr' as <-.
    pose proof (shuffle_urls_perm _ _ _ Esh) as Hp.
    destruct (shuffle_urls_ok (seed P) urls
                (mkState (snd (_get_recipe_urls_from_sitemap (sitemap_url P)
                                 (max_sitemap_urls P) (timeout_s P) (net s)))
                         (global_rng s) (fetch_log s)))
      as (sh' & s2' & Esh' & _ & _ & Hlog & Hseed).
    rewrite Esh in Esh'. injection Esh' as <- <-. cbn in Hlog.
    apply sample_inv in E as (r0 & fr & Eloop & -> & _).
    apply for_urls_requests in Eloop as (new & rest & Hl & Hu & Hf).
    cbn in Hl. exists new, sh, rest.
    split; [congruence|]. split; [exact Hp|]. split; [exact Hu|].
    split; [|exact Hf]. intros n Hn. now apply Hseed.
Qed.

End OrderFacts.

(** ** The match set through the loop *)

Lemma dict_set_grows (k : key) (v : Recipe) (d : match_set) :
  List.length (dict_set k v d) <> List.length d ->
  dict_set k v d = d ++ [(k, v)].
Proof.
  induction d as [|[k' v'] d IH]; cbn; [reflexivity|].
  destruct (key_eqb k k'); cbn; [congruence|].
  intros Hn. rewrite IH; [reflexivity | congruence].
Qed.

Lemma keyed_nodup_values (d : match_set) :
  keyed d -> NoDup (dict_keys d) -> NoDup (dict_values d).
Proof.
  unfold keyed, dict_keys, dict_values. intros Hk.
  induction Hk as [|[[t u] v] d Hv Hk IH]; cbn; intros Hn.
  - constructor.
  - inversion Hn as [|? ? Hnotin Hn']; subst. cbn in Hv. subst v.
    constructor; [|now apply IH].
    intros Hin. apply Hnotin.
    apply (proj1 (@keyed_values d t u Hk)). exact Hin.
Qed.

Section LoopFacts.
Context {World G : Type} `{Network World} `{RandomGen G} `{Str.Lower}.

(** Whatever holds of the match set and is kept by recording a recipe
    under its key, holds at the end of the loop. *)
Lemma for_urls_matches_invariant (I : match_set -> Prop) (P : Params)
      (a b : pystr) :
  (forall t u d, I d -> I (dict_set (t, u) (mkRecipe t u) d)) ->
  forall (urls : list pystr) (fr fr' : Frame World G) (r : result unit),
  I (matches fr) -> for_urls P a b urls fr = (r, fr') -> I (matches fr').
Proof.
  intros Hset. induction urls as [|u rest IH]; intros fr fr' r Hi; cbn [for_urls].
  - unfold Exc.ret. intros E. now injection E as <- <-.
  - unfold Exc.bind at 1.
    destruct (iteration P a b u fr) as [c fr1] eqn:Ei.
    apply iteration_spec in Ei
      as [(-> & -> & _) | (_ & _ & Hns & _ & _ & o & _ & Hmat)].
    + unfold Exc.ret. intros E. now injection E as <- <-.
    + assert (Hi1 : I (matches fr1)).
      { rewrite Hmat. destruct o as [[t tags]|e]; auto.
        destruct (both_in a b (Str.lower tags)); auto. }
      destruct c as [[|]|e].
      * intros E. now apply (IH fr1 fr' r).
      * congruence.
      * intros E. now injection E as <- <-.
Qed.

(** Once the match set is as large as the threshold, the loop asks for
    nothing more. *)
Lemma for_urls_saturated (P : Params) (a b : pystr) (urls : list pystr)
      (fr : Frame World G) :
  Z.max 1 (target_matches P) <= Z.of_nat (List.length (matches fr)) ->
  for_urls P a b urls fr = (Ok tt, fr).
Proof.
  intros Hsat. destruct urls as [|u rest]; cbn [for_urls]; [reflexivity|].
  unfold Exc.bind at 1. unfold iteration, Exc.bind, Exc.get, Exc.ret.
  destruct (tried fr >=? max_attempts P); [reflexivity|].
  assert (E : (Z.of_nat (List.length (matches fr)) >=? Z.max 1 (target_matches P)) = true)
    by (rewrite Z.geb_le; exact Hsat).
  now rewrite E.
Qed.

(** When the loop takes the match set from below the threshold up to it,
    the last request it made is the one that did so, and its recipe is
    the last of the match set. *)
Lemma for_urls_last_request (P : Params) (a b : pystr) (urls : list pystr) :
  forall (fr fr' : Frame World G) (r : result unit),
  for_urls P a b urls fr = (r, fr') ->
  Z.of_nat (List.length (matches fr)) < Z.max 1 (target_matches P) ->
  Z.max 1 (target_matches P) <= Z.of_nat (List.length (matches fr')) ->
  exists pre u t tags_text d,
    fetch_log (st fr') = fetch_log (st fr) ++ pre ++ [(u, Ok (t, tags_text))]
    /\ both_in a b (Str.lower tags_text) = true
    /\ matches fr' = d ++ [((t, u), mkRecipe t u)].
Proof.
  induction urls as [|u rest IH]; intros fr fr' r; cbn [for_urls].
  - unfold Exc.ret. intros E. injection E as <- <-. lia.
  - unfold Exc.bind at 1.
    destruct (iteration P a b u fr) as [c fr1] eqn:Ei.
    apply iteration_spec in Ei
      as [(-> & -> & _) | (_ & _ & Hns & _ & _ & o & Hlog & Hmat)].
    + unfold Exc.ret. intros E. injection E as <- <-. lia.
    + intros E Hlt Hge.
      assert (Hfull : Z.max 1 (target_matches P)
                      <= Z.of_nat (List.length (matches fr1)) ->
                (exists pre u0 t tags_text d,
                  fetch_log (st fr1)
                  = fetch_log (st fr) ++ pre ++ [(u0, Ok (t, tags_text))]
                  /\ both_in a b (Str.lower tags_text) = true
                  /\ matches fr1 = d ++ [((t, u0), mkRecipe t u0)])).
      { intros Hge1. destruct o as [[t tags]|e]; [|rewrite Hmat in Hge1; lia].
        destruct (both_in a b (Str.lower tags)) eqn:Eb;
          [|rewrite Hmat in Hge1; lia].
        exists [], u, t, tags, (matches fr). cbn [app].
        split; [exact Hlog|]. split; [exact Eb|].
        rewrite Hmat. apply dict_set_grows. rewrite Hmat in Hge1. lia. }
      destruct (Z_le_gt_dec (Z.max 1 (target_matches P))
                  (Z.of_nat (List.length (matches fr1)))) as [Hge1 | Hlt1].
      * assert (Efr : fr' = fr1).
        { destruct c as [[|]|e].
          - rewrite for_urls_saturated in E by exact Hge1. now injection E.
          - congruence.
          - now injection E. }
        subst fr'. now apply Hfull.
      * destruct c as [[|]|e].
        -- apply IH in E as (pre & u0 & t & tags & d & Hl & Hb & Hm);
             [|lia|exact Hge].
           exists ((u, o) :: pre), u0, t, tags, d.
           split; [rewrite Hl, Hlog, <- app_assoc; reflexivity|]. auto.
        -- congruence.
        -- injection E as _ <-. lia.
Qed.


End LoopFacts.

Section CalmFacts.
Context {World G : Type} `{Network World} `{RandomGen G} `{Str.Lower}.
Hypothesis sleep_returns : forall d w, fst (sleep d w) = Ok tt.
Hypothesis fetch_fails_by_transport :
  forall u t w e, fst (fetch_page u t w) = Raise e -> e = RequestException.

Lemma iteration_calm (P : Params) (a b u : pystr) (fr fr' : Frame World G)
      (r : result ctl) :
  iteration P a b u fr = (r, fr') -> exists c, r = Ok c.
Proof using sleep_returns fetch_fails_by_transport.
  unfold_iteration.
  destruct (tried fr >=? max_attempts P).
  { intros E. injection E as <- <-. now exists Stop. }
  destruct (Z.of_nat (List.length (matches fr)) >=? Z.max 1 (target_matches P)).
  { intros E. injection E as <- <-. now exists Stop. }
  cbn.
  pose proof (fetch_fails_by_transport u (timeout_s P) (net (st fr))) as Hf.
  destruct (fetch_page u (timeout_s P) (net (st fr))) as [[[t tags]|e] w];
    cbn in *.
  - pose proof (sleep_returns (delay_s P) w) as Hs.
    destruct (both_in a b (Str.lower tags)); cbn;
      destruct (sleep (delay_s P) w) as [[[]|e] w2]; cbn in *;
      try discriminate; intros E; injection E as <- <-; now exists Next.
  - rewrite (Hf e eq_refl). cbn.
    pose proof (sleep_returns (delay_s P) w) as Hs.
    destruct (sleep (delay_s P) w) as [[[]|e2] w2]; cbn in *;
      try discriminate; intros E; injection E as <- <-; now exists Next.
Qed.

(** In a calm world the loop ends normally, and it ends because the
    threshold is reached, or the budget is spent, or every candidate was
    asked for. *)
Lemma for_urls_calm (P : Params) (a b : pystr) (urls : list pystr) :
  forall (fr fr' : Frame World G) (r : result unit),
  for_urls P a b urls fr = (r, fr') ->
  r = Ok tt
  /\ exists new,
       fetch_log (st fr') = fetch_log (st fr) ++ new
       /\ tried fr' = tried fr + Z.of_nat (List.length new)
       /\ (Z.max 1 (target_matches P) <= Z.of_nat (List.length (matches fr'))
           \/ max_attempts P <= tried fr'
           \/ List.length new = List.length urls).
Proof using sleep_returns fetch_fails_by_transport.
  induction urls as [|u rest IH]; intros fr fr' r; cbn [for_urls].
  - unfold Exc.ret. intros E. injection E as <- <-. split; [reflexivity|].
    exists []. rewrite app_nil_r. cbn. repeat split; auto; lia.
  - unfold Exc.bind at 1.
    destruct (iteration P a b u fr) as [c fr1] eqn:Ei.
    destruct (iteration_calm _ _ _ _ _ Ei) as [c0 ->].
    apply iteration_spec in Ei
      as [(Ec & -> & Hwhy) | (_ & _ & Hns & Htr & _ & o & Hlog & _)].
    + injection Ec as ->. unfold Exc.ret. intros E. injection E as <- <-.
      split; [reflexivity|]. exists []. rewrite app_nil_r. cbn.
      split; [reflexivity|]. split; [lia|]. tauto.
    + destruct c0; [|congruence].
      intros E. apply IH in E as (-> & new & Hl & Htr2 & Hwhy).
      split; [reflexivity|]. exists ((u, o) :: new). cbn [List.length].
      split; [rewrite Hl, Hlog, <- app_assoc; reflexivity|].
      split; [lia|]. destruct Hwhy as [Hw | [Hw | Hw]]; auto.
Qed.

End CalmFacts.

Section UrlFacts.
Context {World G : Type} `{Network World} `{RandomGen G} `{Str.Lower}.

(** The URLs of the recipes of a run, as a lemma to share. *)
Lemma scrape_recipes_urls (P : Params) (s s' : State World G)
      (urls : list pystr) (recipes : list Recipe) :
  fst (_get_recipe_urls_from_sitemap (sitemap_url P) (max_sitemap_urls P)
         (timeout_s P) (net s)) = Ok urls ->
  scrape_recipes P s = (Ok recipes, s') ->
  forall x, In x recipes -> In (url x) urls /\ has_marker (url x).
Proof.
  intros Hr E [t u] Hin. cbn [url].
  pose proof (scrape_recipes_requests P s Hr E)
    as (new & sh & rest & Hl & Hp & Hs & _ & _).
  pose proof (scrape_recipes_matches P s E) as Hrun.
  destruct Hrun as (new2 & Hl2 & Hm).
  assert (Hn : new2 = new).
  { rewrite Hl in Hl2. exact (eq_sym (app_inv_head _ _ _ Hl2)). }
  subst new2. apply (proj1 (Hm t u)) in Hin. destruct Hin as (tags & Hin & _).
  cbn [fst snd] in Hin.
  assert (Hu : In u urls).
  { apply Permutation_in with sh; [now symmetry|]. rewrite Hs.
    apply in_or_app. left. change u with (fst (u, Ok (t, tags))).
    now apply in_map. }
  split; [exact Hu|].
  destruct (_get_recipe_urls_from_sitemap (sitemap_url P) (max_sitemap_urls P)
              (timeout_s P) (net s)) as [r0 w] eqn:Er. cbn in Hr. subst r0.
  pose proof (reader_marker _ _ _ _ Er) as Hmk.
  rewrite Forall_forall in Hmk. now apply Hmk.
Qed.

End UrlFacts.

(** ** Properties of a sampling run *)

Section RunProperties.
Context {World G : Type} `{Network World} `{RandomGen G} `{Str.Lower}.

(** X5.  The pages a run requests are the first candidates of the shuffled
    list, in that order and one request each; the shuffled list is a
    permutation of what the sitemap reader returned, and with a seed it is
    the shuffle of a generator freshly made from the seed.  So no URL is
    requested more often than the sitemap lists it. *)
Theorem requests_follow_shuffle (P : Params) (s s' : State World G)
        (r : result (list Recipe)) (urls : list pystr) :
  fst (_get_recipe_urls_from_sitemap (sitemap_url P) (max_sitemap_urls P)
         (timeout_s P) (net s)) = Ok urls ->
  scrape_recipes P s = (r, s') ->
  exists new sh rest,
    fetch_log s' = fetch_log s ++ new
    /\ Permutation urls sh
    /\ sh = map fst new ++ rest
    /\ (forall n, seed P = Some n -> sh = fst (shuffle urls (rng_seed n))).
Proof.
  intros Hr E.
  pose proof (scrape_recipes_requests P s Hr E)
    as (new & sh & rest & Hl & Hp & Hs & Hseed & _).
  exists new, sh, rest. auto.
Qed.

(** X6.  Every recipe a run returns has the URL of a candidate the sitemap
    reader returned, and that URL contains the recipe-path marker
    "/allerhande/recept/", whatever the cap and the path the reader
    took. *)
Theorem returned_urls_are_recipe_pages (P : Params) (s s' : State World G)
        (urls : list pystr) (recipes : list Recipe) :
  fst (_get_recipe_urls_from_sitemap (sitemap_url P) (max_sitemap_urls P)
         (timeout_s P) (net s)) = Ok urls ->
  scrape_recipes P s = (Ok recipes, s') ->
  forall x, In x recipes -> In (url x) urls /\ has_marker (url x).
Proof. apply scrape_recipes_urls. Qed.

(** X7.  The list a run returns holds no recipe twice, even when a URL is
    listed and fetched more than once. *)
Theorem returned_recipes_distinct (P : Params) (s s' : State World G)
        (recipes : list Recipe) :
  scrape_recipes P s = (Ok recipes, s') -> NoDup recipes.
Proof.
  intros E. apply scrape_recipes_inv in E
    as [(e & _ & E & _) | [(_ & E & ->) | (urls & sh & s2 & _ & _ & _ & E)]].
  - discriminate.
  - injection E as ->. constructor.
  - apply sample_inv in E as (r0 & fr & Eloop & _ & Hrs & _).
    rewrite (Hrs recipes eq_refl).
    apply keyed_nodup_values.
    + eapply for_urls_matches_invariant with (I := keyed);
        [ | | exact Eloop].
      * intros t u d. apply dict_set_keyed.
      * constructor.
    + eapply for_urls_matches_invariant
        with (I := fun d => NoDup (dict_keys d)); [ | | exact Eloop].
      * intros t u d. apply dict_set_nodup.
      * constructor.
Qed.

(** X11.  A run with a seed leaves the module-level generator of [random]
    as it found it, however the run ends. *)
Theorem seeded_run_keeps_global_generator (P : Params) (n : Z)
        (s s' : State World G) (r : result (list Recipe)) :
  seed P = Some n ->
  scrape_recipes P s = (r, s') ->
  global_rng s' = global_rng s.
Proof.
  intros Hn E. apply scrape_recipes_inv in E
    as [(e & _ & _ & ->) | [(_ & _ & ->) | (urls & sh & s2 & _ & _ & Esh & E)]];
    try reflexivity.
  destruct (shuffle_urls_ok (seed P) urls
              (mkState (snd (_get_recipe_urls_from_sitemap (sitemap_url P)
                               (max_sitemap_urls P) (timeout_s P) (net s)))
                       (global_rng s) (fetch_log s)))
    as (sh' & s2' & Esh' & _ & _ & _ & Hseed).
  rewrite Esh in Esh'. injection Esh' as <- <-.
  destruct (Hseed n Hn) as [-> _].
  apply sample_spec in E as (new & _ & _ & _ & Hg & _). exact Hg.
Qed.

(** X9.  When a run returns as many recipes as the threshold
    [max 1 target_matches] asks for, the last page it requested is the one
    that completed the set: that request succeeded with both keywords in its
    haystack, its recipe is the last of the result, and nothing was
    requested after it. *)
Theorem full_result_ends_the_requests (P : Params) (s s' : State World G)
        (recipes : list Recipe) :
  scrape_recipes P s = (Ok recipes, s') ->
  Z.max 1 (target_matches P) <= Z.of_nat (List.length recipes) ->
  exists pre u t tags_text others,
    fetch_log s' = fetch_log s ++ pre ++ [(u, Ok (t, tags_text))]
    /\ occurs_in (Str.lower (Str.strip (want_kooktechniek P)))
                 (Str.lower tags_text)
    /\ occurs_in (Str.lower (Str.strip (want_menugang P)))
                 (Str.lower tags_text)
    /\ recipes = others ++ [mkRecipe t u].
Proof.
  intros E Hfull. apply scrape_recipes_inv in E
    as [(e & _ & E & _) | [(_ & E & ->) | (urls & sh & s2 & _ & _ & Esh & E)]].
  - discriminate.
  - injection E as ->. cbn in Hfull. lia.
  - destruct (shuffle_urls_ok (seed P) urls
                (mkState (snd (_get_recipe_urls_from_sitemap (sitemap_url P)
                                 (max_sitemap_urls P) (timeout_s P) (net s)))
                         (global_rng s) (fetch_log s)))
      as (sh' & s2' & Esh' & _ & _ & Hlog & _).
    rewrite Esh in Esh'. injection Esh' as <- <-. cbn in Hlog.
    apply sample_inv in E as (r0 & fr & Eloop & -> & Hrs & _).
    rewrite (Hrs recipes eq_refl) in *.
    unfold dict_values in Hfull. rewrite length_map in Hfull.
    apply for_urls_last_request in Eloop
      as (pre & u & t & tags & d & Hl & Hb & Hm); [|cbn; lia|exact Hfull].
    cbn in Hl. apply both_in_spec in Hb as [Ha Hb].
    exists pre, u, t, tags, (dict_values d).
    split; [congruence|]. split; [exact Ha|]. split; [exact Hb|].
    rewrite Hm. unfold dict_values. now rewrite map_app.
Qed.

(** X10.  In a world where a page request fails by a transport failure or
    not at all and [time.sleep] returns, a run that got its candidates
    returns a list, and unless the list is as long as the threshold
    [max 1 target_matches] it has requested [min N max_attempts] pages: it
    does not give up before the budget or the candidates are used up. *)
Theorem calm_run_uses_its_budget (P : Params) (s s' : State World G)
        (r : result (list Recipe)) (urls : list pystr) :
  (forall d w, fst (sleep d w) = Ok tt) ->
  (forall u t w e, fst (fetch_page u t w) = Raise e -> e = RequestException) ->
  0 <= max_attempts P ->
  fst (_get_recipe_urls_from_sitemap (sitemap_url P) (max_sitemap_urls P)
         (timeout_s P) (net s)) = Ok urls ->
  scrape_recipes P s = (r, s') ->
  exists recipes new,
    r = Ok recipes
    /\ fetch_log s' = fetch_log s ++ new
    /\ (Z.of_nat (List.length recipes) < Z.max 1 (target_matches P) ->
        Z.of_nat (List.length new)
        = Z.min (Z.of_nat (List.length urls)) (max_attempts P)).
Proof.
  intros Hsleep Hfetch HB Hr E. apply scrape_recipes_inv in E
    as [(e & E & _) | [(Hr' & -> & ->) | (urls' & sh & s2 & Hr' & _ & Esh & E)]].
  - congruence.
  - rewrite Hr in Hr'. injection Hr' as ->. exists [], []. cbn.
    rewrite app_nil_r. repeat split; auto. lia.
  - rewrite Hr in Hr'. injection Hr' as <-.
    destruct (shuffle_urls_ok (seed P) urls
                (mkState (snd (_get_recipe_urls_from_sitemap (sitemap_url P)
                                 (max_sitemap_urls P) (timeout_s P) (net s)))
                         (global_rng s) (fetch_log s)))
      as (sh' & s2' & Esh' & Hlen & _ & Hlog & _).
    rewrite Esh in Esh'. injection Esh' as <- <-. cbn in Hlog.
    pose proof E as E0.
    apply sample_spec in E0 as (new0 & Hl0 & Hn0 & Hb0 & _).
    apply sample_inv in E as (r0 & fr & Eloop & Hfl & _ & Hok).
    destruct (for_urls_calm Hsleep Hfetch _ _ _ _ _ Eloop)
      as (-> & new & Hl & Htr & Hwhy).
    cbn in Hl, Htr. rewrite Hfl in Hl0.
    assert (Hn : new0 = new).
    { rewrite Hl in Hl0. exact (eq_sym (app_inv_head _ _ _ Hl0)). }
    subst new0. specialize (Hb0 HB). rewrite (Hok eq_refl).
    exists (dict_values (matches fr)), new.
    split; [reflexivity|]. split; [congruence|].
    unfold dict_values. rewrite length_map.
    intros Hshort. destruct Hwhy as [Hw | [Hw | Hw]]; lia.
Qed.

End RunProperties.

Section ErrorFacts.
Context {World G : Type} `{Network World} `{RandomGen G} `{Str.Lower}.

(** X4.  An exception of the sitemap request, and whatever the reader
    raises after a stream that broke short of the cap (a parse error of the
    fallback, or the exception of the stream when it is not [ParseError]),
    are raised by [scrape_recipes] unchanged: no page has been requested,
    and the module-level generator has not been used. *)
Theorem sitemap_errors_propagate (P : Params) (s : State World G) (w' : World)
        (got : result sitemap_response) (e : exn) :
  1 <= max_sitemap_urls P ->
  session_get_sitemap (sitemap_url P) (timeout_s P) (net s) = (got, w') ->
  (got = Raise e
   \/ exists resp, got = Ok resp
                   /\ sitemap_urls (max_sitemap_urls P) resp = Raise e) ->
  scrape_recipes P s = (Raise e, mkState w' (global_rng s) (fetch_log s)).
Proof.
  intros Hm Hg Hwhy.
  assert (Er : _get_recipe_urls_from_sitemap (sitemap_url P)
                 (max_sitemap_urls P) (timeout_s P) (net s) = (Raise e, w')).
  { destruct Hwhy as [-> | (resp & -> & Hs)].
    - unfold _get_recipe_urls_from_sitemap, Exc.bind. now rewrite Hg.
    - rewrite (@reader_sitemap_urls World _ _ _ _ _ _ resp Hm Hg). now rewrite Hs. }
  unfold scrape_recipes, lift_net. unfold Exc.bind at 1. now rewrite Er.
Qed.

End ErrorFacts.

(** ** Page fetcher *)

Lemma str_app_nil_r (s : pystr) : (s ++ []) = s.
Proof. induction s as [|c s IH]; cbn; [reflexivity | now rewrite IH]. Qed.

Lemma str_app_assoc (a b c : pystr) :
  ((a ++ b) ++ c) = (a ++ b ++ c).
Proof. induction a as [|x a IH]; cbn; [reflexivity | now rewrite IH]. Qed.

Lemma occurs_in_refl (x : pystr) : occurs_in x x.
Proof. exists [], []. cbn. now rewrite str_app_nil_r. Qed.

Lemma occurs_in_trans (a b c : pystr) :
  occurs_in a b -> occurs_in b c -> occurs_in a c.
Proof.
  intros (p1 & q1 & ->) (p2 & q2 & ->).
  exists (p2 ++ p1), (q1 ++ q2).
  now rewrite !str_app_assoc.
Qed.

Lemma occurs_in_app_l (x a b : pystr) :
  occurs_in x a -> occurs_in x (a ++ b).
Proof.
  intros (p & q & ->). exists p, (q ++ b). now rewrite !str_app_assoc.
Qed.

Lemma occurs_in_app_r (x a b : pystr) :
  occurs_in x b -> occurs_in x (a ++ b).
Proof.
  intros (p & q & ->). exists (a ++ p), q. now rewrite !str_app_assoc.
Qed.

Lemma occurs_in_empty (x : pystr) : occurs_in [] x.
Proof. exists [], x. reflexivity. Qed.

Lemma occurs_in_empty_inv (x : pystr) : occurs_in x [] -> x = [].
Proof.
  intros (p & q & E). destruct p; cbn in E; [|discriminate].
  destruct x; [reflexivity | discriminate].
Qed.

Lemma truthy_spec (s : pystr) : Str.truthy s = true <-> s <> [].
Proof. destruct s; cbn; split; congruence. Qed.

Lemma join_occurs (sep x : pystr) (l : list pystr) :
  In x l -> occurs_in x (join sep l).
Proof.
  induction l as [|y l IH]; intros Hin; [destruct Hin|].
  cbn [join]. destruct l as [|z l].
  - destruct Hin as [-> | []]. apply occurs_in_refl.
  - destruct Hin as [-> | Hin].
    + apply occurs_in_app_l, occurs_in_refl.
    + apply occurs_in_app_r, occurs_in_app_r. now apply IH.
Qed.

Lemma join_ends_with (sep x : pystr) (l : list pystr) :
  exists pre, join sep (l ++ [x]) = (pre ++ x).
Proof.
  induction l as [|y l IH]; cbn [app join].
  - now exists [].
  - destruct IH as [pre E]. destruct (l ++ [x]) as [|z l'] eqn:El.
    + destruct l; discriminate.
    + exists (y ++ sep ++ pre). rewrite E. now rewrite !str_app_assoc.
Qed.

Lemma has_marker_nonempty (u : pystr) : has_marker u -> u <> [].
Proof. intros Hm ->. apply occurs_in_empty_inv in Hm. discriminate. Qed.

Section FetcherFacts.
Variable render : json -> pystr.

Lemma tags_text_holds (doc : html_page) (x : pystr) :
  In x (tags_bits render doc) -> occurs_in x (tags_text render doc).
Proof.
  intros Hin. destruct x as [|c x]; [apply occurs_in_empty|].
  unfold tags_text. apply join_occurs. apply filter_In. now split.
Qed.

Lemma item_bits_holds (fields : list (pystr * json)) (k s : pystr) :
  is_recipe_type (dict_get (py "@type") fields) = true ->
  k = (py "keywords") \/ k = (py "recipeCategory") ->
  field_has fields k s ->
  In s (item_bits render (JObject fields)).
Proof.
  intros Ht Hk Hf. cbn [item_bits]. rewrite Ht.
  assert (Hin : In s (field_bits render (dict_get k fields))).
  { destruct Hf as [-> | (l & -> & Hl)]; cbn [field_bits].
    - now left.
    - change s with (str_of render (JString s)). now apply in_map. }
  apply in_or_app. destruct Hk as [-> | ->]; auto.
Qed.

Lemma tags_bits_item (doc : html_page) (fields : list (pystr * json)) (x : pystr) :
  ld_item doc fields -> In x (item_bits render (JObject fields)) ->
  In x (tags_bits render doc).
Proof.
  intros Hi Hx. unfold tags_bits. apply in_or_app. left.
  apply in_flat_map. destruct Hi as [Hi | (items & Hi & Hit)].
  - exists (Decoded (JObject fields)). split; [exact Hi|].
    cbn. now rewrite app_nil_r.
  - exists (Decoded (JArray items)). split; [exact Hi|].
    cbn. apply in_flat_map. now exists (JObject fields).
Qed.

Lemma title_or_url (u : pystr) (doc : html_page) :
  page_title u doc = u
  \/ (page_title u doc <> []
      /\ Str.strip (page_title u doc) = page_title u doc).
Proof.
  unfold page_title. cbn zeta.
  match goal with
  | |- context [Str.truthy (Str.strip ?t)] =>
      destruct (Str.truthy (Str.strip t)) eqn:E
  end; [right | now left].
  split; [now apply truthy_spec | apply strip_idem].
Qed.

(** X13.  The title the page fetcher returns is the URL, or a text that is
    not empty and has no white space at either end. *)
Theorem title_is_url_or_trimmed_text (u : pystr) (doc : html_page) :
  page_title u doc = u
  \/ (page_title u doc <> []
      /\ Str.strip (page_title u doc) = page_title u doc).
Proof. apply title_or_url. Qed.

(** X14.  The haystack ends with the visible text of the page, whatever
    structured data the page has. *)
Theorem haystack_ends_with_body_text (doc : html_page) :
  exists pre, tags_text render doc = (pre ++ body_text doc).
Proof.
  unfold tags_text, tags_bits. rewrite filter_app. cbn [filter].
  destruct (Str.truthy (body_text doc)) eqn:E.
  - apply join_ends_with.
  - destruct (body_text doc); [|discriminate].
    rewrite app_nil_r. eexists. now rewrite str_app_nil_r.
Qed.

(** X15.  A string under [keywords] or [recipeCategory] of a structured
    data item of type Recipe, alone or in a list, occurs in the
    haystack. *)
Theorem structured_keywords_in_haystack (doc : html_page)
        (fields : list (pystr * json)) (k s : pystr) :
  ld_item doc fields ->
  is_recipe_type (dict_get (py "@type") fields) = true ->
  k = (py "keywords") \/ k = (py "recipeCategory") ->
  field_has fields k s ->
  occurs_in s (tags_text render doc).
Proof.
  intros Hi Ht Hk Hf. apply tags_text_holds.
  apply tags_bits_item with fields; [exact Hi|].
  now apply item_bits_holds with k.
Qed.

End FetcherFacts.

(** ** The sampler over the page fetcher of the source *)

Section WebRun.
Context {World G : Type} `{Web World} `{RandomGen G} `{Str.Lower}.
Variable render : json -> pystr.

(** X17.  With the page fetcher of the source in place, every recipe a run
    returns has a URL with the recipe marker and a title that is not
    empty, and it stands for a page that was served and whose scripts
    were all processed: the title is the one extracted from that page,
    and both keywords, trimmed and lower-cased, occur in the lower-cased
    haystack extracted from it. *)
Theorem web_run_returns_fetched_pages (P : Params) (s s' : State World G)
        (recipes : list Recipe) :
  @scrape_recipes World G (web_network render) _ _ P s = (Ok recipes, s') ->
  forall x, In x recipes ->
    has_marker (url x)
    /\ title x <> []
    /\ exists w doc,
         fst (web_get_page (url x) (timeout_s P) w) = Ok doc
         /\ first_raise (ld_json doc) = None
         /\ title x = page_title (url x) doc
         /\ occurs_in (Str.lower (Str.strip (want_kooktechniek P)))
                      (Str.lower (tags_text render doc))
         /\ occurs_in (Str.lower (Str.strip (want_menugang P)))
                      (Str.lower (tags_text render doc)).
Proof.
  intros E [t u] Hin. cbn [url title].
  destruct (@_get_recipe_urls_from_sitemap World (web_network render)
              (sitemap_url P) (max_sitemap_urls P) (timeout_s P) (net s))
    as [[urls|e] w0] eqn:Er.
  2:{ unfold scrape_recipes, lift_net in E. unfold Exc.bind at 1 in E.
      rewrite Er in E. discriminate. }
  assert (Hr : fst (@_get_recipe_urls_from_sitemap World (web_network render)
                      (sitemap_url P) (max_sitemap_urls P) (timeout_s P) (net s))
               = Ok urls) by now rewrite Er.
  pose proof (@scrape_recipes_urls World G (web_network render) _ _ P s s'
                urls recipes Hr E _ Hin) as [_ Hmk]. cbn [url] in Hmk.
  pose proof (@scrape_recipes_requests World G (web_network render) _ _ P s s'
                _ urls Hr E) as (new & sh & rest & Hl & _ & _ & _ & Hf).
  pose proof (@scrape_recipes_matches World G (web_network render) _ _ P s s'
                recipes E) as Hrun.
  destruct Hrun as (new2 & Hl2 & Hm).
  assert (Hn : new2 = new).
  { rewrite Hl in Hl2. exact (eq_sym (app_inv_head _ _ _ Hl2)). }
  subst new2. apply (proj1 (Hm t u)) in Hin.
  destruct Hin as (tags & Hin & Ha & Hb). cbn [fst snd] in Hin.
  rewrite Forall_forall in Hf. destruct (Hf _ Hin) as [w Hw].
  cbn [fst snd fetch_page web_network] in Hw.
  unfold _fetch_recipe_title_and_tags, Exc.bind, Exc.ret, Exc.raise in Hw.
  destruct (web_get_page u (timeout_s P) w) as [[doc|e] w2] eqn:Eg;
    cbn in Hw; [|discriminate].
  destruct (first_raise (ld_json doc)) as [e|] eqn:Efr; cbn in Hw;
    [discriminate|].
  injection Hw as -> ->.
  split; [exact Hmk|]. split.
  - destruct (title_or_url u doc) as [Et | [Hne _]]; [|exact Hne].
    rewrite Et. now apply has_marker_nonempty.
  - exists w, doc. rewrite Eg. auto.
Qed.

End WebRun.

(** ** Command line entry point *)

Section MainFacts.
Context {World G : Type} `{Network World} `{RandomGen G} `{Str.Lower}.


End MainFacts.

(** ** More on the reader, the result and the keywords *)

Lemma scan_locs_trimmed (max_urls : Z) (elems : list element) :
  forall urls,
  Forall trimmed_url urls ->
  Forall trimmed_url (fst (scan_locs max_urls elems urls)).
Proof.
  induction elems as [|el rest IH]; intros urls Hu; [exact Hu|].
  rewrite scan_locs_step. unfold recipe_loc.
  destruct (text el) as [t|]; [|now apply IH].
  destruct (Str.endswith (tag el) (py "loc") && Str.truthy t); cbn [andb];
    [|now apply IH].
  destruct (Str.str_in recipe_marker (Str.strip t)) eqn:Em; [|now apply IH].
  assert (Hu' : Forall trimmed_url (urls ++ [Str.strip t])).
  { apply Forall_app. split; [exact Hu|]. constructor; [|constructor].
    split; [|apply strip_clean_ends].
    apply has_marker_nonempty. now apply str_in_spec. }
  destruct (Z.of_nat (List.length (urls ++ [Str.strip t])) >=? max_urls);
    [exact Hu' | now apply IH].
Qed.

Section MoreFacts.
Context {World G : Type} `{Network World} `{RandomGen G} `{Str.Lower}.

(** X3.  Every URL the sitemap reader returns is not empty and has no
    white space, in the sense of [str.isspace], at its first or its last
    character, on the streaming path and on the fallback path, for any
    cap. *)
Theorem reader_urls_are_trimmed (sm : pystr) (max_urls : Z) (t : seconds)
        (w w' : World) (urls : list pystr) :
  _get_recipe_urls_from_sitemap sm max_urls t w = (Ok urls, w') ->
  Forall (fun u => u <> [] /\ Str.clean_ends u) urls.
Proof.
  unfold _get_recipe_urls_from_sitemap, Exc.bind, Exc.ret.
  destruct (session_get_sitemap sm t w) as [[resp|e] w1]; [|discriminate].
  pose proof (@scan_locs_trimmed max_urls (stream_elems resp) [] (Forall_nil _)) as Hk.
  destruct (scan_locs max_urls (stream_elems resp) []) as [us [rest|]];
    cbn [fst] in Hk.
  - intros E. injection E as <- <-. exact Hk.
  - destruct (stream_end resp) as [e0|].
    + unfold Exc.raise. destruct (is_parse_error e0); [|discriminate].
      destruct (document resp) as [root|e]; [|discriminate].
      intros E. injection E as <- <-. now apply scan_locs_trimmed.
    + intros E. injection E as <- <-. exact Hk.
Qed.

Lemma for_urls_replay (P : Params) (a b : pystr) (urls : list pystr) :
  forall (fr fr' : Frame World G) (r : result unit),
  for_urls P a b urls fr = (r, fr') ->
  exists new,
    fetch_log (st fr') = fetch_log (st fr) ++ new
    /\ matches fr' = fold_left (replay_step a b) new (matches fr).
Proof.
  induction urls as [|u rest IH]; intros fr fr' r; cbn [for_urls].
  - unfold Exc.ret. intros E. injection E as <- <-. exists [].
    now rewrite app_nil_r.
  - unfold Exc.bind at 1.
    destruct (iteration P a b u fr) as [c fr1] eqn:Ei.
    apply iteration_spec in Ei
      as [(-> & -> & _) | (_ & _ & Hns & _ & _ & o & Hlog & Hmat)].
    + unfold Exc.ret. intros E. injection E as <- <-. exists [].
      now rewrite app_nil_r.
    + assert (Hstep : matches fr1 = replay_step a b (matches fr) (u, o)).
      { rewrite Hmat. unfold replay_step. cbn [fst snd].
        destruct o as [[t tags]|e]; reflexivity. }
      destruct c as [[|]|e].
      * intros E. apply IH in E as (new & Hl & Hm).
        exists ((u, o) :: new). cbn [fold_left]. rewrite <- Hstep.
        split; [rewrite Hl, Hlog, <- app_assoc; reflexivity | exact Hm].
      * congruence.
      * intros E. injection E as <- <-. exists [(u, o)]. auto.
Qed.

(** X8.  The list a run returns is the replay of its request history:
    going through the requests in order, a page fetched with both keywords
    in its lower-cased haystack is put last unless its title and URL are
    already there.  So the recipes come in the order in which they were
    first found. *)
Theorem result_is_replay_of_requests (P : Params) (s s' : State World G)
        (recipes : list Recipe) :
  scrape_recipes P s = (Ok recipes, s') ->
  exists new,
    fetch_log s' = fetch_log s ++ new
    /\ recipes = dict_values
                   (replay (Str.lower (Str.strip (want_kooktechniek P)))
                           (Str.lower (Str.strip (want_menugang P))) new).
Proof.
  intros E. apply scrape_recipes_inv in E
    as [(e & _ & E & _) | [(_ & E & ->) | (urls & sh & s2 & _ & _ & Esh & E)]].
  - discriminate.
  - injection E as ->. exists []. cbn. now rewrite app_nil_r.
  - destruct (shuffle_urls_ok (seed P) urls
                (mkState (snd (_get_recipe_urls_from_sitemap (sitemap_url P)
                                 (max_sitemap_urls P) (timeout_s P) (net s)))
                         (global_rng s) (fetch_log s)))
      as (sh' & s2' & Esh' & _ & _ & Hlog & _).
    rewrite Esh in Esh'. injection Esh' as <- <-. cbn in Hlog.
    apply sample_inv in E as (r0 & fr & Eloop & -> & Hrs & _).
    apply for_urls_replay in Eloop as (new & Hl & Hm). cbn in Hl, Hm.
    exists new. split; [congruence|].
    rewrite (Hrs recipes eq_refl), Hm. reflexivity.
Qed.

End MoreFacts.

Section CapFacts.
Context {World : Type} `{Network World}.

(** X2.  With a cap of at least one, the reader returns at most [max_urls]
    URLs, each containing the recipe marker, whether it read the stream to
    its end, stopped at the cap, or went through the fallback parse. *)
Theorem reader_respects_positive_cap (sm : pystr) (max_urls : Z) (t : seconds)
        (w w' : World) (urls : list pystr) :
  1 <= max_urls ->
  _get_recipe_urls_from_sitemap sm max_urls t w = (Ok urls, w') ->
  Z.of_nat (List.length urls) <= max_urls /\ Forall has_marker urls.
Proof. apply reader_bound. Qed.

End CapFacts.

(** ** The further properties at work *)

Section FurtherAtWork.
Local Existing Instance ascii_lower.

Lemma reader_reads_sitemap_urls_witness :
  _get_recipe_urls_from_sitemap (sitemap_url default_params) 3 14000
    world_broken_stream
  = (Ok [url_a; url_a; url_b], world_broken_stream).
Proof.
  apply (@reader_reads_sitemap_urls Script _ (sitemap_url default_params) 3
           14000 world_broken_stream world_broken_stream resp_broken_stream).
  - lia.
  - reflexivity.
Defined.

Lemma requests_follow_shuffle_witness :
  let P := params_demo 2 3 (Some 5) in
  let s := start world_demo 7 in
  exists new sh rest,
    fetch_log (snd (scrape_recipes P s)) = fetch_log s ++ new
    /\ Permutation [url_a; url_b; url_c] sh
    /\ sh = map fst new ++ rest
    /\ (forall n, seed P = Some n
                  -> sh = fst (shuffle [url_a; url_b; url_c] (rng_seed n))).
Proof.
  cbn zeta.
  apply (@requests_follow_shuffle Script Z _ _ _ (params_demo 2 3 (Some 5))
           (start world_demo 7)
           (snd (scrape_recipes (params_demo 2 3 (Some 5)) (start world_demo 7)))
           (fst (scrape_recipes (params_demo 2 3 (Some 5)) (start world_demo 7)))).
  - vm_compute. reflexivity.
  - vm_compute. reflexivity.
Defined.

Lemma returned_urls_are_recipe_pages_witness :
  In (url (mkRecipe (py "Soep") url_a)) [url_a; url_b; url_c]
  /\ has_marker (url (mkRecipe (py "Soep") url_a)).
Proof.
  apply (@returned_urls_are_recipe_pages Script Z _ _ _ (params_demo 60 3 (Some 2))
           (start world_demo 7)
           (snd (scrape_recipes (params_demo 60 3 (Some 2)) (start world_demo 7)))
           [url_a; url_b; url_c] [mkRecipe (py "Soep") url_a]).
  - vm_compute. reflexivity.
  - vm_compute. reflexivity.
  - now left.
Defined.

Lemma returned_recipes_distinct_witness :
  map fst (fetch_log (snd (scrape_recipes (params_demo 60 3 (Some 2))
                             (start world_twice 7))))
  = [url_a; url_a]
  /\ NoDup [mkRecipe (py "Soep") url_a].
Proof.
  split; [vm_compute; reflexivity|].
  apply (@returned_recipes_distinct Script Z _ _ _ (params_demo 60 3 (Some 2))
           (start world_twice 7)
           (snd (scrape_recipes (params_demo 60 3 (Some 2)) (start world_twice 7)))).
  vm_compute. reflexivity.
Defined.

Lemma seeded_run_keeps_global_generator_witness :
  global_rng (snd (scrape_recipes (params_demo 60 3 (Some 5)) (start world_demo 7)))
  = 7.
Proof.
  apply (@seeded_run_keeps_global_generator Script Z _ _ _
           (params_demo 60 3 (Some 5)) 5 (start world_demo 7)
           (snd (scrape_recipes (params_demo 60 3 (Some 5)) (start world_demo 7)))
           (fst (scrape_recipes (params_demo 60 3 (Some 5)) (start world_demo 7)))).
  - reflexivity.
  - vm_compute. reflexivity.
Defined.

Lemma full_result_ends_the_requests_witness :
  let P := params_demo 60 1 (Some 5) in
  let s := start world_demo 7 in
  exists pre u t tags_text others,
    fetch_log (snd (scrape_recipes P s))
    = fetch_log s ++ pre ++ [(u, Ok (t, tags_text))]
    /\ occurs_in (Str.lower (Str.strip (want_kooktechniek P)))
                 (Str.lower tags_text)
    /\ occurs_in (Str.lower (Str.strip (want_menugang P)))
                 (Str.lower tags_text)
    /\ [mkRecipe (py "Soep") url_a] = others ++ [mkRecipe t u].
Proof.
  cbn zeta.
  apply (@full_result_ends_the_requests Script Z _ _ _ (params_demo 60 1 (Some 5))
           (start world_demo 7)
           (snd (scrape_recipes (params_demo 60 1 (Some 5)) (start world_demo 7)))
           [mkRecipe (py "Soep") url_a]).
  - vm_compute. reflexivity.
  - cbn. lia.
Defined.

Lemma calm_run_uses_its_budget_witness :
  let P := params_demo 2 3 (Some 2) in
  let s := mkState calm_demo 7 [] in
  exists recipes new,
    fst (scrape_recipes P s) = Ok recipes
    /\ fetch_log (snd (scrape_recipes P s)) = fetch_log s ++ new
    /\ (Z.of_nat (List.length recipes) < Z.max 1 (target_matches P) ->
        Z.of_nat (List.length new) = Z.min 3 2).
Proof.
  cbn zeta.
  apply (@calm_run_uses_its_budget Calm Z _ _ _ (params_demo 2 3 (Some 2))
           (mkState calm_demo 7 [])
           (snd (scrape_recipes (params_demo 2 3 (Some 2)) (mkState calm_demo 7 [])))
           (fst (scrape_recipes (params_demo 2 3 (Some 2)) (mkState calm_demo 7 [])))
           [url_a; url_b; url_c]).
  - reflexivity.
  - intros u t w e. cbn. destruct (calm_lookup u (calm_pages w)).
    + discriminate.
    + intros E. now injection E.
  - cbn. lia.
  - vm_compute. reflexivity.
  - vm_compute. reflexivity.
Defined.

Lemma sitemap_errors_propagate_witness :
  scrape_recipes default_params (start world_down 7)
  = (Raise RequestException, start world_down 7).
Proof.
  apply (@sitemap_errors_propagate Script Z _ _ _ default_params
           (start world_down 7) world_down (Raise RequestException)
           RequestException).
  - cbn. lia.
  - reflexivity.
  - now left.
Defined.

Lemma structured_keywords_in_haystack_witness :
  occurs_in (py "Koken") (tags_text render_demo doc_soup).
Proof.
  apply (@structured_keywords_in_haystack render_demo doc_soup
           [((py "@type"), JString (py "Recipe"));
            ((py "keywords"), JArray [JString (py "Koken"); JString (py "soep")]);
            ((py "recipeCategory"), JString (py "Hoofdgerecht"))]
           (py "keywords") (py "Koken")).
  - left. cbn. now left.
  - reflexivity.
  - now left.
  - right. eexists. split; [reflexivity|]. now left.
Defined.

Lemma web_run_returns_fetched_pages_witness :
  let x := mkRecipe (py "Tomatensoep") url_a in
  let P := params_demo 60 3 (Some 2) in
  has_marker (url x)
  /\ title x <> []
  /\ exists w doc,
       fst (web_get_page (url x) (timeout_s P) w) = Ok doc
       /\ first_raise (ld_json doc) = None
       /\ title x = page_title (url x) doc
       /\ occurs_in (Str.lower (Str.strip (want_kooktechniek P)))
                    (Str.lower (tags_text render_demo doc))
       /\ occurs_in (Str.lower (Str.strip (want_menugang P)))
                    (Str.lower (tags_text render_demo doc)).
Proof.
  cbn zeta.
  apply (@web_run_returns_fetched_pages Site Z _ _ _ render_demo
           (params_demo 60 3 (Some 2)) (mkState site_demo 7 [])
           (snd (@scrape_recipes Site Z (web_network render_demo) _ _
                   (params_demo 60 3 (Some 2)) (mkState site_demo 7 [])))
           [mkRecipe (py "Tomatensoep") url_a]).
  - vm_compute. reflexivity.
  - now left.
Defined.

Lemma reader_respects_positive_cap_witness :
  Z.of_nat (List.length [url_a; url_a; url_b]) <= 3
  /\ Forall has_marker [url_a; url_a; url_b].
Proof.
  apply (@reader_respects_positive_cap Script _ (sitemap_url default_params) 3
           14000 world_broken_stream world_broken_stream [url_a; url_a; url_b]).
  - lia.
  - vm_compute. reflexivity.
Defined.

Lemma reader_urls_are_trimmed_witness :
  fst (_get_recipe_urls_from_sitemap (sitemap_url default_params) 8000 14000
         world_padded)
  = Ok [url_a; url_b]
  /\ Forall (fun u => u <> [] /\ Str.clean_ends u) [url_a; url_b].
Proof.
  split; [vm_compute; reflexivity|].
  apply (@reader_urls_are_trimmed Script _ (sitemap_url default_params) 8000
           14000 world_padded world_padded).
  vm_compute. reflexivity.
Defined.

Lemma result_is_replay_of_requests_witness :
  let P := with_keywords (params_demo 60 3 (Some 5)) (py "") (py "") in
  let s := start world_demo 7 in
  exists new,
    fetch_log (snd (scrape_recipes P s)) = fetch_log s ++ new
    /\ [mkRecipe (py "Taart") url_b; mkRecipe (py "Soep") url_a]
       = dict_values
           (replay (Str.lower (Str.strip (want_kooktechniek P)))
                   (Str.lower (Str.strip (want_menugang P))) new).
Proof.
  cbn zeta.
  apply (@result_is_replay_of_requests Script Z _ _ _
           (with_keywords (params_demo 60 3 (Some 5)) (py "") (py ""))
           (start world_demo 7)).
  vm_compute. reflexivity.
Defined.

End FurtherAtWork.
